(** * Bible AI assistant: the chat client and its contract with the engine

    A shallow embedding of the TypeScript front end (the transport
    layer in [lib/api.ts], the page state in [app/page.tsx], and the
    components [ChatInput], [ChatMessage] and [SettingsPanel]),
    together with the theorems relating it to the specification of the
    retrieval and conversation engine it talks to. *)

From Stdlib Require Import NArith ZArith QArith List String Ascii DecimalString Lia.
From Equations Require Import Equations.
From stdpp Require Import base option list gmap.

(* ===================================================================== *)
(** ** JavaScript strings

    A JavaScript string is a sequence of UTF-16 code units; [trim],
    [includes] and regular expressions without the [u] flag all work
    on code units, so that is the representation used here. *)
(* ===================================================================== *)

Module JsString.

Local Open Scope N_scope.

Definition char16 : Type := N.
Abbreviation jsstring := (list N).

(** *** Literals: UTF-8 source text to UTF-16 code units *)

Definition utf16_units (cp : N) : jsstring :=
  if cp <? 65536 then [cp]
  else [55296 + N.shiftr (cp - 65536) 10; 56320 + N.land (cp - 65536) 1023].

Fixpoint utf8_decode (pending : N) (need : nat) (bs : list N) : jsstring :=
  match bs with
  | [] => []
  | b :: bs' =>
    match need with
    | O =>
      if b <? 128 then b :: utf8_decode 0 O bs'
      else if b <? 224 then utf8_decode (N.land b 31) 1%nat bs'
      else if b <? 240 then utf8_decode (N.land b 15) 2%nat bs'
      else utf8_decode (N.land b 7) 3%nat bs'
    | S k =>
      let cp := N.lor (N.shiftl pending 6) (N.land b 63) in
      match k with
      | O => utf16_units cp ++ utf8_decode 0 O bs'
      | S _ => utf8_decode cp k bs'
      end
    end
  end.

Definition js (s : string) : jsstring :=
  utf8_decode 0 O (map N_of_ascii (list_ascii_of_string s)).

(** *** Character classes of ECMAScript *)

(** LineTerminator: LF, CR, LS, PS.  The regular expression atom [.]
    (without the [s] flag) matches every code unit but these. *)
Definition isLineTerminator (c : char16) : bool :=
  (c =? 10) || (c =? 13) || (c =? 8232) || (c =? 8233).

(** WhiteSpace and LineTerminator together: what [String.prototype.trim]
    strips and what the class escape [\s] matches. *)
Definition isWhiteSpace (c : char16) : bool :=
  (c =? 9) || (c =? 11) || (c =? 12) || (c =? 32) || (c =? 160)
  || (c =? 5760) || ((8192 <=? c) && (c <=? 8202))
  || (c =? 8239) || (c =? 8287) || (c =? 12288) || (c =? 65279)
  || isLineTerminator c.

(** *** String operations used by the client *)

Fixpoint trimStart (s : jsstring) : jsstring :=
  match s with
  | [] => []
  | c :: s' => if isWhiteSpace c then trimStart s' else s
  end.

Definition trimEnd (s : jsstring) : jsstring := rev (trimStart (rev s)).

Definition trim (s : jsstring) : jsstring := trimEnd (trimStart s).

(** Truthiness of a string value: the empty string is falsy. *)
Definition truthy (s : jsstring) : bool :=
  match s with [] => false | _ :: _ => true end.

Fixpoint startsWith (p s : jsstring) : bool :=
  match p, s with
  | [], _ => true
  | _ :: _, [] => false
  | a :: p', b :: s' => (a =? b) && startsWith p' s'
  end.

Fixpoint includes (s sub : jsstring) : bool :=
  startsWith sub s ||
  match s with
  | [] => false
  | _ :: s' => includes s' sub
  end.

(** Number-to-string conversion of a non-negative integer, as a template
    literal performs it on [response.status]. *)
Definition numberToString (n : N) : jsstring :=
  js (NilZero.string_of_uint (N.to_uint n)).

End JsString.


Import JsString.

(* ===================================================================== *)
(** ** [String.prototype.replace] with a global regular expression

    The regular expression and its replacement template are given as a
    matcher anchored at the head of the remaining input: on a match it
    returns the expanded template and the input after the match.  The
    scan is the one of the language: try to match at the current code
    unit; on success emit the replacement and continue after the match,
    otherwise copy one code unit and move on.  Neither expression of
    this program can match the empty string. *)
(* ===================================================================== *)

(** Keeps the equation of a scrutinee available to the termination proof. *)
Definition inspect {A : Type} (a : A) : {b : A | a = b} := exist _ a eq_refl.

Section GlobalReplace.

Variable matchAt : jsstring -> option (jsstring * jsstring).
Hypothesis matchAt_shorter : forall s out rest,
  matchAt s = Some (out, rest) -> (length rest < length s)%nat.

Equations? replaceAll (s : jsstring) : jsstring by wf (length s) lt :=
  replaceAll [] := [];
  replaceAll (c :: s') with inspect (matchAt (c :: s')) := {
    | exist _ (Some (out, rest)) Hm := out ++ replaceAll rest;
    | exist _ None _ := c :: replaceAll s' }.
Proof.
  - apply (matchAt_shorter _ _ _ Hm).
  - cbn. lia.
Qed.

End GlobalReplace.


(* ===================================================================== *)
(** ** Shared types ([@/types]) *)
(* ===================================================================== *)

Inductive Role : Type := user | assistant.

(** [retrieval_mode]: ["rag"] is the grounded mode of the engine,
    ["conversational"] the ungrounded one. *)
Inductive RetrievalMode : Type := rag | conversational.


Module Source.
Record t : Type := mk {
  text : jsstring;
  reference : jsstring;
  reference_kr : jsstring;
  translation : jsstring;
  book : jsstring;
  book_kr : jsstring;
  chapter : Z;
  verse : Z;
  similarity : option Q
}.
End Source.

Module Message.
Record t : Type := mk {
  id : jsstring;
  role : Role;
  content : jsstring;
  timestamp : N;                          (* a [Date], as milliseconds *)
  sources : option (list Source.t);       (* [sources?] *)
  retrieval_mode : option RetrievalMode   (* [retrieval_mode?] *)
}.
End Message.

(** The interface declares both translations as strings and the
    denomination as [string | null]; [SettingsPanel.update] writes a
    [string | null] under any key, so at run time every field holds a
    string or null, and that is what a field holds here. *)
Module UserPreferences.
Record t : Type := mk {
  translation_kr : option jsstring;
  translation_en : option jsstring;
  denomination : option jsstring
}.
End UserPreferences.

(* ===================================================================== *)
(** ** The transport layer ([lib/api.ts]) *)
(* ===================================================================== *)

Module Api.

Definition API_BASE : jsstring := js "http://localhost:8000/api".

Module ChatRequest.
Record t : Type := mk {
  message : jsstring;
  session_id : option jsstring;
  preferences : UserPreferences.t
}.
End ChatRequest.

Record Usage : Type := { input_tokens : Z; output_tokens : Z }.

Module ChatResponse.
Record t : Type := mk {
  response : jsstring;
  session_id : jsstring;
  language : jsstring;
  sources : list Source.t;
  retrieval_mode : RetrievalMode;
  model : jsstring;
  usage : Usage
}.
End ChatResponse.

(** *** [fetch] and promises *)

Inductive Method : Type := GET | POST | DELETE.

(** The request as [fetch] receives it; the JSON text of the body is
    represented by the value that [JSON.stringify] is applied to. *)
Record Request : Type := {
  url : jsstring;
  method : Method;
  headers : list (jsstring * jsstring);
  body : option ChatRequest.t
}.

(** A thrown value: an [Error] with its message, or anything else. *)
Inductive Thrown : Type :=
| JsError (message : jsstring)
| NotAnError.

(** How an awaited promise settles. *)
Inductive Settled (A : Type) : Type :=
| Fulfilled (value : A)
| Threw (reason : Thrown).
Arguments Fulfilled {A} value.
Arguments Threw {A} reason.

(** A received response: its status, what [text()] yields, and what
    [json()] yields (a rejection when the body is not JSON). *)
Record Response : Type := {
  status : N;
  text : jsstring;
  json : Settled ChatResponse.t
}.

(** [response.ok]: the status is in the range 200 to 299. *)
Definition ok (response : Response) : bool :=
  ((200 <=? status response) && (status response <=? 299))%N.

(** The network and the server behind it, as state [Net] that each call of
    [fetch] reads and updates.  [fetch] resolves with the response
    whatever its status, and rejects when no response can be had. *)
Section Transport.

Context {Net : Type}.
Variable fetch : Request -> Net -> Settled Response * Net.

Definition chatRequest (payload : ChatRequest.t) : Request :=
  {| url := API_BASE ++ js "/chat";
     method := POST;
     headers := [(js "Content-Type", js "application/json")];
     body := Some payload |}.

Definition serverError (response : Response) : Thrown :=
  JsError (js "Server error " ++ numberToString (status response)
             ++ js ": " ++ text response).

Definition sendMessage (payload : ChatRequest.t) (net : Net)
  : Settled ChatResponse.t * Net :=
  match fetch (chatRequest payload) net with
  | (Threw e, net') => (Threw e, net')
  | (Fulfilled response, net') =>
    if negb (ok response) then (Threw (serverError response), net')
    else (json response, net')
  end.

Definition deleteRequest (sessionId : jsstring) : Request :=
  {| url := API_BASE ++ js "/session/" ++ sessionId;
     method := DELETE;
     headers := [];
     body := None |}.

Definition clearSession (sessionId : jsstring) (net : Net)
  : Settled unit * Net :=
  match fetch (deleteRequest sessionId) net with
  | (Threw e, net') => (Threw e, net')
  | (Fulfilled _, net') => (Fulfilled tt, net')
  end.

End Transport.

(** A transport that delivers: every request reaches the server [serve]
    and its response, of whatever status, comes back. *)
Definition answering {Net : Type} (serve : Request -> Net -> Response * Net)
  : Request -> Net -> Settled Response * Net :=
  fun request net => let (response, net') := serve request net in
                     (Fulfilled response, net').

End Api.

(* ===================================================================== *)
(** ** [components/ChatMessage.tsx] *)
(* ===================================================================== *)

Module ChatMessage.

Local Open Scope N_scope.

Definition STAR : char16 := 42.
Definition COMMA : char16 := 44.
Definition LBRACKET : char16 := 91.
Definition RBRACKET : char16 := 93.
Definition QUOTE : char16 := 34.

Definition STARS : jsstring := [STAR; STAR].
Definition BIBLE : jsstring := js "Bible".
Definition BIAOBU : jsstring := js "标步".

(** *** [/\*\*(.*?)\*\*/g] *)

(** [(.*?)\*\*]: the lazy group tries the closing marker at each position
    before it takes one more code unit, which must not be a line
    terminator.  Returns group 1 and the input after the match. *)
Fixpoint lazyThenStars (s : jsstring) : option (jsstring * jsstring) :=
  match s with
  | [] => None
  | c :: s' =>
    if startsWith STARS s then Some ([], drop 2 s)
    else if isLineTerminator c then None
    else match lazyThenStars s' with
         | Some (group1, rest) => Some (c :: group1, rest)
         | None => None
         end
  end.

Definition matchBold (s : jsstring) : option (jsstring * jsstring) :=
  if startsWith STARS s then lazyThenStars (drop 2 s) else None.

(** ['<strong class="text-gold-300">$1</strong>'] *)
Definition boldTemplate (group1 : jsstring) : jsstring :=
  js "<strong class=" ++ [QUOTE] ++ js "text-gold-300" ++ [QUOTE] ++ js ">"
    ++ group1 ++ js "</strong>".

Definition boldReplacement (s : jsstring) : option (jsstring * jsstring) :=
  match matchBold s with
  | Some (group1, rest) => Some (boldTemplate group1, rest)
  | None => None
  end.

(** *** [/\[(Bible|标步),\s*([^\]]+)\]/g] *)

(** [[^\]]*\]]: what is left of the greedy group 2 after its first code
    unit, then the closing bracket.  Giving back code units cannot help,
    since none of them is a bracket. *)
Fixpoint restThenBracket (s : jsstring) : option (jsstring * jsstring) :=
  match s with
  | [] => None
  | c :: s' =>
    if c =? RBRACKET then Some ([], s')
    else match restThenBracket s' with
         | Some (group2, rest) => Some (c :: group2, rest)
         | None => None
         end
  end.

(** [([^\]]+)\]] *)
Definition refThenBracket (s : jsstring) : option (jsstring * jsstring) :=
  match s with
  | [] => None
  | c :: s' =>
    if c =? RBRACKET then None
    else match restThenBracket s' with
         | Some (group2, rest) => Some (c :: group2, rest)
         | None => None
         end
  end.

(** [\s*([^\]]+)\]]: the greedy [\s*] takes white space as long as the
    rest of the expression still matches, and otherwise leaves it to
    group 2. *)
Fixpoint spacesThenRef (s : jsstring) : option (jsstring * jsstring) :=
  match s with
  | [] => None
  | c :: s' =>
    if isWhiteSpace c then
      match spacesThenRef s' with
      | Some m => Some m
      | None => refThenBracket s
      end
    else refThenBracket s
  end.

(** One alternative of group 1, then the comma and the rest. *)
Definition nameThenRef (name s : jsstring)
  : option (jsstring * jsstring * jsstring) :=
  if startsWith name s then
    match drop (length name) s with
    | c :: s' =>
      if c =? COMMA then
        match spacesThenRef s' with
        | Some (group2, rest) => Some (name, group2, rest)
        | None => None
        end
      else None
    | [] => None
    end
  else None.

Definition matchCitation (s : jsstring)
  : option (jsstring * jsstring * jsstring) :=
  match s with
  | [] => None
  | c :: s' =>
    if c =? LBRACKET then
      match nameThenRef BIBLE s' with
      | Some m => Some m
      | None => nameThenRef BIAOBU s'
      end
    else None
  end.

(** ['<span class="text-gold-300 font-medium">[$1, $2]</span>'] *)
Definition citationTemplate (group1 group2 : jsstring) : jsstring :=
  js "<span class=" ++ [QUOTE] ++ js "text-gold-300 font-medium" ++ [QUOTE]
    ++ js ">[" ++ group1 ++ js ", " ++ group2 ++ js "]</span>".

Definition citationReplacement (s : jsstring) : option (jsstring * jsstring) :=
  match matchCitation s with
  | Some (group1, group2, rest) => Some (citationTemplate group1 group2, rest)
  | None => None
  end.

(** *** Every match consumes input *)

Lemma lazyThenStars_shorter s group1 rest :
  lazyThenStars s = Some (group1, rest) -> (length rest < length s)%nat.
Proof.
  revert group1 rest. induction s as [|c s IH]; intros group1 rest H; [discriminate|].
  cbn [lazyThenStars] in H.
  destruct (startsWith STARS (c :: s)) eqn:Es.
  - simplify_eq. rewrite length_drop. cbn [length]. lia.
  - destruct (isLineTerminator c); [discriminate|].
    destruct (lazyThenStars s) as [[g r]|] eqn:El; [|discriminate].
    simplify_eq. specialize (IH _ _ eq_refl). cbn. lia.
Qed.

Lemma boldReplacement_shorter s out rest :
  boldReplacement s = Some (out, rest) -> (length rest < length s)%nat.
Proof.
  unfold boldReplacement, matchBold. intros H.
  destruct (startsWith STARS s); [|discriminate].
  destruct (lazyThenStars (drop 2 s)) as [[g r]|] eqn:El; [|discriminate].
  simplify_eq. apply lazyThenStars_shorter in El.
  rewrite length_drop in El. lia.
Qed.

Lemma restThenBracket_shorter s group2 rest :
  restThenBracket s = Some (group2, rest) -> (length rest < length s)%nat.
Proof.
  revert group2 rest. induction s as [|c s IH]; intros group2 rest H; [discriminate|].
  cbn [restThenBracket] in H. destruct (c =? RBRACKET).
  - simplify_eq. cbn. lia.
  - destruct (restThenBracket s) as [[g r]|] eqn:E; [|discriminate].
    simplify_eq. specialize (IH _ _ eq_refl). cbn. lia.
Qed.

Lemma refThenBracket_shorter s group2 rest :
  refThenBracket s = Some (group2, rest) -> (length rest < length s)%nat.
Proof.
  destruct s as [|c s]; [discriminate|]. cbn [refThenBracket].
  destruct (c =? RBRACKET); [discriminate|].
  destruct (restThenBracket s) as [[g r]|] eqn:E; [|discriminate].
  intros H. simplify_eq. apply restThenBracket_shorter in E. cbn. lia.
Qed.

Lemma spacesThenRef_shorter s group2 rest :
  spacesThenRef s = Some (group2, rest) -> (length rest < length s)%nat.
Proof.
  revert group2 rest. induction s as [|c s IH]; intros group2 rest H; [discriminate|].
  cbn [spacesThenRef] in H.
  destruct (isWhiteSpace c).
  - destruct (spacesThenRef s) as [[g r]|] eqn:E.
    + simplify_eq. specialize (IH _ _ eq_refl). cbn. lia.
    + apply refThenBracket_shorter in H. exact H.
  - apply refThenBracket_shorter in H. exact H.
Qed.

Lemma nameThenRef_shorter name s group1 group2 rest :
  nameThenRef name s = Some (group1, group2, rest) -> (length rest < length s)%nat.
Proof.
  unfold nameThenRef. destruct (startsWith name s); [|discriminate].
  destruct (drop (length name) s) as [|c s'] eqn:Ed; [discriminate|].
  destruct (c =? COMMA); [|discriminate].
  destruct (spacesThenRef s') as [[g r]|] eqn:E; [|discriminate].
  intros H.
  assert (Hl : length (drop (length name) s) = S (length s')) by (rewrite Ed; reflexivity).
  rewrite length_drop in Hl.
  simplify_eq. apply spacesThenRef_shorter in E. lia.
Qed.

Lemma citationReplacement_shorter s out rest :
  citationReplacement s = Some (out, rest) -> (length rest < length s)%nat.
Proof.
  unfold citationReplacement. destruct (matchCitation s) as [[[g1 g2] r]|] eqn:E; [|discriminate].
  intros H. simplify_eq. unfold matchCitation in E.
  destruct s as [|c s]; [discriminate|]. destruct (c =? LBRACKET); [|discriminate].
  destruct (nameThenRef BIBLE s) as [m|] eqn:E1.
  - simplify_eq. apply nameThenRef_shorter in E1. cbn. lia.
  - apply nameThenRef_shorter in E. cbn. lia.
Qed.

(** *** [formatContent] *)

Definition formatContent (text : jsstring) : jsstring :=
  let html := text in
  let html := replaceAll boldReplacement boldReplacement_shorter html in
  let html := replaceAll citationReplacement citationReplacement_shorter html in
  html.

(** *** The rendered message *)

(** The source chip [{s.reference} ({s.translation})]. *)
Definition sourceChip (s : Source.t) : jsstring :=
  Source.reference s ++ js " (" ++ Source.translation s ++ js ")".

(** What the component puts on the page: the user's bubble, or the
    assistant's bubble with its formatted content and, when
    [message.sources && message.sources.length > 0], the list of
    source chips. *)
Inductive View : Type :=
| UserBubble (content : jsstring)
| AssistantBubble (html : jsstring) (sourceList : option (list jsstring)).

Definition render (message : Message.t) : View :=
  match Message.role message with
  | user => UserBubble (Message.content message)
  | assistant =>
    AssistantBubble (formatContent (Message.content message))
      match Message.sources message with
      | Some (s :: l) => Some (map sourceChip (s :: l))
      | Some [] | None => None
      end
  end.

End ChatMessage.

(* ===================================================================== *)
(** ** [components/ChatInput.tsx] *)
(* ===================================================================== *)

Module ChatInput.

(** The part of the text area that the component reads and writes. *)
Record Textarea : Type := { value : jsstring; height : jsstring }.

(** [handleSend], with [textareaRef.current] as an option ([None] for a
    ref that holds no element).  Returns the argument of the call of
    [onSend], if it is called, and the text area afterwards. *)
Definition handleSend (disabled : bool) (current : option Textarea)
  : option jsstring * option Textarea :=
  match current with
  | None => (None, None)
  | Some textarea =>
    let value := trim (value textarea) in
    if negb (truthy value) || disabled then (None, Some textarea)
    else (Some value, Some {| value := []; height := js "auto" |})
  end.

(** [handleInput]: the height follows the content, up to 120 pixels
    ([Math.min(el.scrollHeight, 120) + "px"]). *)
Definition handleInput (scrollHeight : N) (current : option Textarea)
  : option Textarea :=
  match current with
  | None => None
  | Some textarea =>
    Some {| value := value textarea;
            height := numberToString (N.min scrollHeight 120) ++ js "px" |}
  end.

End ChatInput.

(* ===================================================================== *)
(** ** [components/SettingsPanel.tsx] *)
(* ===================================================================== *)

Module SettingsPanel.

(** [keyof UserPreferences] *)
Inductive Key : Type := key_translation_kr | key_translation_en | key_denomination.

(** Property access [preferences[key]]. *)
Definition get (preferences : UserPreferences.t) (key : Key) : option jsstring :=
  match key with
  | key_translation_kr => UserPreferences.translation_kr preferences
  | key_translation_en => UserPreferences.translation_en preferences
  | key_denomination => UserPreferences.denomination preferences
  end.

(** [update]: the argument of [onChange], the object
    [{ ...preferences, [key]: value }]. *)
Definition update (preferences : UserPreferences.t) (key : Key)
  (value : option jsstring) : UserPreferences.t :=
  match key with
  | key_translation_kr =>
    UserPreferences.mk value (UserPreferences.translation_en preferences)
      (UserPreferences.denomination preferences)
  | key_translation_en =>
    UserPreferences.mk (UserPreferences.translation_kr preferences) value
      (UserPreferences.denomination preferences)
  | key_denomination =>
    UserPreferences.mk (UserPreferences.translation_kr preferences)
      (UserPreferences.translation_en preferences) value
  end.

(** [e.target.value || null] *)
Definition valueOrNull (targetValue : jsstring) : option jsstring :=
  if truthy targetValue then Some targetValue else None.

(** The [onChange] handlers of the three selects, applied to
    [e.target.value]. *)
Definition onChangeTranslationKr (preferences : UserPreferences.t)
  (targetValue : jsstring) : UserPreferences.t :=
  update preferences key_translation_kr (Some targetValue).

Definition onChangeTranslationEn (preferences : UserPreferences.t)
  (targetValue : jsstring) : UserPreferences.t :=
  update preferences key_translation_en (Some targetValue).

Definition onChangeDenomination (preferences : UserPreferences.t)
  (targetValue : jsstring) : UserPreferences.t :=
  update preferences key_denomination (valueOrNull targetValue).

(** The [value] attributes of the options of the denomination select. *)
Definition denominationOptions : list jsstring :=
  [ []; js "Presbyterian"; js "Baptist"; js "Methodist"; js "Pentecostal";
    js "Non-denominational" ].

End SettingsPanel.

(* ===================================================================== *)
(** ** [app/page.tsx] *)
(* ===================================================================== *)

Module Page.

Import Api.

Record State : Type := {
  messages : list Message.t;
  isLoading : bool;
  sessionId : option jsstring;
  preferences : UserPreferences.t;
  error : option jsstring
}.

Definition initial : State :=
  {| messages := [];
     isLoading := false;
     sessionId := None;
     preferences :=
       UserPreferences.mk (Some (js "개역한글")) (Some (js "ESV")) None;
     error := None |}.

(** What a new message takes from its environment:
    [crypto.randomUUID()] and [new Date()]. *)
Record Stamp : Type := { uuid : jsstring; now : N }.

Definition LF : char16 := 10%N.

Definition CANNOT_CONNECT : jsstring :=
  js "서버에 연결할 수 없습니다. 백엔드를 실행해주세요." ++ [LF]
    ++ js "Cannot connect to server. Please start the backend.".

Definition TRY_AGAIN : jsstring :=
  js "오류가 발생했습니다. 다시 시도해주세요." ++ [LF].

(** The message computed in the [catch] block. *)
Definition errorMessage (err : Thrown) : jsstring :=
  match err with
  | JsError message =>
    if includes message (js "Failed to fetch") then CANNOT_CONNECT
    else TRY_AGAIN ++ message
  | NotAnError => TRY_AGAIN ++ js "Unknown error"
  end.

Definition userMsg (text : jsstring) (stamp : Stamp) : Message.t :=
  Message.mk (uuid stamp) user (trim text) (now stamp) None None.

Definition botMsg (response : ChatResponse.t) (stamp : Stamp) : Message.t :=
  Message.mk (uuid stamp) assistant (ChatResponse.response response) (now stamp)
    (Some (ChatResponse.sources response))
    (Some (ChatResponse.retrieval_mode response)).

(** [handleSend] up to its [await]: the guard, then the state updates
    [setError(null)], [setMessages(prev => [...prev, userMsg])] and
    [setIsLoading(true)], and the payload handed to [sendMessage]
    ([None] when the guard returns). *)
Definition handleSendBegin (st : State) (text : jsstring) (stamp : Stamp)
  : State * option ChatRequest.t :=
  if negb (truthy (trim text)) || isLoading st then (st, None)
  else
    ({| messages := messages st ++ [userMsg text stamp];
        isLoading := true;
        sessionId := sessionId st;
        preferences := preferences st;
        error := None |},
     Some (ChatRequest.mk (trim text) (sessionId st) (preferences st))).

(** [handleSend] after its [await]: the rest of the [try] block when the
    promise is fulfilled, the [catch] block when it is rejected, and
    [finally] in both cases. *)
Definition handleSendSettle (st : State) (result : Settled ChatResponse.t)
  (stamp : Stamp) : State :=
  match result with
  | Fulfilled response =>
    {| messages := messages st ++ [botMsg response stamp];
       isLoading := false;
       sessionId := Some (ChatResponse.session_id response);
       preferences := preferences st;
       error := error st |}
  | Threw err =>
    {| messages := messages st;
       isLoading := false;
       sessionId := sessionId st;
       preferences := preferences st;
       error := Some (errorMessage err) |}
  end.

(** One whole run of [handleSend] over a transport. *)
Definition handleSend {Net : Type}
  (fetch : Request -> Net -> Settled Response * Net)
  (st : State) (text : jsstring) (stampUser stampBot : Stamp) (net : Net)
  : State * Net :=
  match handleSendBegin st text stampUser with
  | (st', None) => (st', net)
  | (st', Some payload) =>
    let (result, net') := sendMessage fetch payload net in
    (handleSendSettle st' result stampBot, net')
  end.

(** *** What is rendered *)

(** The chat area: the welcome screen while there is no message, else the
    messages, the typing indicator while loading, and the error box when
    [error] is truthy. *)
Inductive ChatArea : Type :=
| Welcome
| Chat (bubbles : list ChatMessage.View) (typing : bool) (errorBox : option jsstring).

Definition hasMessages (st : State) : bool :=
  (0 <? length (messages st))%nat.

Definition render (st : State) : ChatArea :=
  if hasMessages st then
    Chat (map ChatMessage.render (messages st)) (isLoading st)
      match error st with
      | Some e => if truthy e then Some e else None
      | None => None
      end
  else Welcome.

(** *** The client as a transition system

    The page, the text area of [ChatInput], and the requests handed to
    [sendMessage] that have not settled yet.  Each handler runs on the
    state of the latest render. *)

Record Client : Type := {
  page : State;
  textarea : ChatInput.Textarea;
  inflight : list ChatRequest.t
}.

Definition start : Client :=
  {| page := initial;
     textarea := {| ChatInput.value := []; ChatInput.height := js "auto" |};
     inflight := [] |}.

Inductive Event : Type :=
| Suggest (text : jsstring) (stamp : Stamp)      (* a button of the welcome screen *)
| Type_ (text : jsstring) (scrollHeight : N)     (* the user edits the text area *)
| PressSend (stamp : Stamp)                      (* the send button, or Enter *)
| Settle (result : Settled ChatResponse.t) (stamp : Stamp)
                                                 (* the pending promise settles *)
| ChangeSettings (prefs : UserPreferences.t).    (* [onChange] of the settings panel *)

(** What the outside sees of a step. *)
Inductive Action : Type :=
| Sent (payload : ChatRequest.t)
| Received (response : ChatResponse.t)
| Failed (err : Thrown).

Definition ask (c : Client) (text : jsstring) (stamp : Stamp) (ta : ChatInput.Textarea)
  : Client * list Action :=
  let (st', sent) := handleSendBegin (page c) text stamp in
  ({| page := st'; textarea := ta; inflight := inflight c ++ option_list sent |},
   map Sent (option_list sent)).

Definition step (c : Client) (ev : Event) : Client * list Action :=
  match ev with
  | Suggest text stamp => ask c text stamp (textarea c)
  | Type_ text scrollHeight =>
    match ChatInput.handleInput scrollHeight
            (Some {| ChatInput.value := text;
                     ChatInput.height := ChatInput.height (textarea c) |}) with
    | Some ta => ({| page := page c; textarea := ta; inflight := inflight c |}, [])
    | None => (c, [])
    end
  | PressSend stamp =>
    match ChatInput.handleSend (isLoading (page c)) (Some (textarea c)) with
    | (Some value, Some ta) => ask c value stamp ta
    | _ => (c, [])
    end
  | Settle result stamp =>
    match inflight c with
    | [] => (c, [])
    | _ :: pending =>
      ({| page := handleSendSettle (page c) result stamp;
          textarea := textarea c;
          inflight := pending |},
       [match result with
        | Fulfilled response => Received response
        | Threw err => Failed err
        end])
    end
  | ChangeSettings prefs =>
    ({| page := {| messages := messages (page c);
                   isLoading := isLoading (page c);
                   sessionId := sessionId (page c);
                   preferences := prefs;
                   error := error (page c) |};
        textarea := textarea c;
        inflight := inflight c |}, [])
  end.

Fixpoint run (c : Client) (evs : list Event) : Client * list Action :=
  match evs with
  | [] => (c, [])
  | ev :: evs' =>
    let (c', log) := step c ev in
    let (c'', log') := run c' evs' in
    (c'', log ++ log')
  end.

(** The session id of the latest response in a log. *)
Fixpoint lastSessionId (log : list Action) : option jsstring :=
  match log with
  | [] => None
  | a :: log' =>
    match lastSessionId log' with
    | Some sid => Some sid
    | None =>
      match a with
      | Received response => Some (ChatResponse.session_id response)
      | _ => None
      end
    end
  end.

End Page.

(* ===================================================================== *)
(** ** The engine behind the transport

    The client above is all of the program that the source holds.  The
    Session Manager, the Mode Router and the Response Assembler that
    answer its requests are modelled here from sections 3, 4.4, 4.6 and
    4.7 of the specification, as far as the properties below need them. *)
(* ===================================================================== *)

Module Engine.

(** Modelled from the spec: the Turn of section 3 (role, content, the
    sources attached to it, the retrieval mode used); the engine that
    records turns is missing from the source.  The timestamp is left out. *)
Record Turn : Type := {
  role : Role;
  content : jsstring;
  sources : list Source.t;
  mode : RetrievalMode
}.

(** Modelled from the spec: the Session of section 3 (its ordered turns
    and its preferences, under its session id as key of the store); the
    Session Manager is missing from the source.  The two timestamps are
    left out. *)
Record Session : Type := {
  turns : list Turn;
  prefs : UserPreferences.t
}.

(** Modelled from the spec: the session store of the missing Session
    Manager, sessions by session id. *)
Abbreviation SessionStore := (gmap jsstring Session).

(** Modelled from the spec: [getOrCreate] of the missing Session Manager
    (section 4.6): a known id yields its session; an omitted or unknown id
    allocates a new session, without turns, under a fresh id. *)
Definition getOrCreate (store : SessionStore) (sessionId : option jsstring)
  (preferences : UserPreferences.t) : SessionStore * jsstring * Session :=
  let allocate :=
    let k := fresh (dom store) in
    let s := {| turns := []; prefs := preferences |} in
    (<[k := s]> store, k, s) in
  match sessionId with
  | None => allocate
  | Some k =>
    match store !! k with
    | Some s => (store, k, s)
    | None => allocate
    end
  end.

(** Modelled from the spec: [appendTurn] of the missing Session Manager. *)
Definition appendTurn (store : SessionStore) (sessionId : jsstring) (turn : Turn)
  : SessionStore :=
  alter (fun s => {| turns := turns s ++ [turn]; prefs := prefs s |}) sessionId store.

(** Modelled from the spec: [history] of the missing Session Manager, the
    turns in the order they were appended. *)
Definition history (store : SessionStore) (sessionId : jsstring) : list Turn :=
  match store !! sessionId with
  | Some s => turns s
  | None => []
  end.

(** Modelled from the spec: [clear] of the missing Session Manager: the
    full clear of a session's turns, which succeeds whether the session
    exists or not. *)
Definition clear (store : SessionStore) (sessionId : jsstring) : SessionStore :=
  alter (fun s => {| turns := []; prefs := prefs s |}) sessionId store.

(** Modelled from the spec: explicit deletion of a session (section 3),
    missing from the source with the rest of the Session Manager. *)
Definition deleteSession (store : SessionStore) (sessionId : jsstring)
  : SessionStore :=
  delete sessionId store.

(** Modelled from the spec: the Candidate of section 3, as the missing
    Hybrid Retriever hands it on: the verse with its citation metadata, and
    its score. *)
Record Candidate : Type := {
  verse : Source.t;
  score : Q
}.

(** Modelled from the spec: the missing Mode Router (section 4.4).  The
    confidence is the score of the top-ranked candidate; the mode is
    grounded when it reaches the threshold, ungrounded when it is below
    or when there is no candidate. *)
Definition route (threshold : Q) (candidates : list Candidate) : RetrievalMode :=
  match candidates with
  | [] => conversational
  | top :: _ => if Qle_bool threshold (score top) then rag else conversational
  end.

(** Modelled from the spec: the source metadata that the missing
    Response Assembler attaches (section 4.7): that of the candidates when
    grounded, none when ungrounded. *)
Definition attachSources (mode : RetrievalMode) (candidates : list Candidate)
  : list Source.t :=
  match mode with
  | rag => map verse candidates
  | conversational => []
  end.

(** Modelled from the spec: the two system-level instructions of the
    missing Response Assembler. *)
Inductive Instruction : Type := GroundingInstruction | GeneralConversation.

(** Modelled from the spec: the generation request payload of the missing
    Response Assembler (section 4.7). *)
Record Payload : Type := {
  instruction : Instruction;
  context : list Source.t;
  priorTurns : list Turn;
  newMessage : jsstring;
  preferences : UserPreferences.t
}.

(** Modelled from the spec: the recent window that bounds the prior turns
    in a payload: the last [window] turns. *)
Definition recentWindow (window : nat) (ts : list Turn) : list Turn :=
  drop (length ts - window) ts.

(** Modelled from the spec: the result of the transport-level [chat]
    (section 6). *)
Record ChatResult : Type := {
  text : jsstring;
  sessionId : jsstring;
  resultSources : list Source.t;
  resultMode : RetrievalMode
}.

(** Modelled from the spec: the failures surfaced to the caller
    (section 7). *)
Inductive Failure : Type := RetrievalUnavailable | GenerationFailure.

Section Chat.

(** The configuration and the external collaborators of section 6: the
    confidence threshold, the recent window, retrieval up to the merged
    candidate list ([None]: unavailable), the context expander, and the
    generation service ([None]: failed after its retries). *)
Variable threshold : Q.
Variable window : nat.
Variable retrieve : jsstring -> option (list Candidate).
Variable expand : list Candidate -> list Source.t.
Variable generate : Payload -> option jsstring.

(** Modelled from the spec: the payload that the missing Response
    Assembler builds for a query. *)
Definition assemble (mode : RetrievalMode) (candidates : list Candidate)
  (session : Session) (message : jsstring) (preferences : UserPreferences.t)
  : Payload :=
  {| instruction := match mode with
                    | rag => GroundingInstruction
                    | conversational => GeneralConversation
                    end;
     context := match mode with
                | rag => expand candidates
                | conversational => []
                end;
     priorTurns := recentWindow window (turns session);
     newMessage := message;
     preferences := preferences |}.

(** Modelled from the spec: the payload of the generation request that a
    call of [chat] makes, if retrieval is available. *)
Definition chatPayload (store : SessionStore) (message : jsstring)
  (sessionId : option jsstring) (preferences : UserPreferences.t)
  : option Payload :=
  match retrieve message with
  | None => None
  | Some candidates =>
    let '(_, _, session) := getOrCreate store sessionId preferences in
    Some (assemble (route threshold candidates) candidates session message preferences)
  end.

(** Modelled from the spec: [chat] of the missing engine (control flow of
    section 2): retrieval, mode, payload, generation, and on success the
    user turn and the assistant turn recorded in the session.  A failure
    leaves the store as it was. *)
Definition chat (store : SessionStore) (message : jsstring)
  (sessionId : option jsstring) (preferences : UserPreferences.t)
  : (Failure + ChatResult) * SessionStore :=
  match retrieve message with
  | None => (inl RetrievalUnavailable, store)
  | Some candidates =>
    let '(store', k, session) := getOrCreate store sessionId preferences in
    let mode := route threshold candidates in
    match generate (assemble mode candidates session message preferences) with
    | None => (inl GenerationFailure, store)
    | Some answer =>
      let attached := attachSources mode candidates in
      let userTurn :=
        {| role := user; content := message; sources := []; mode := mode |} in
      let assistantTurn :=
        {| role := assistant; content := answer; sources := attached; mode := mode |} in
      (inr {| text := answer; sessionId := k;
              resultSources := attached; resultMode := mode |},
       appendTurn (appendTurn store' k userTurn) k assistantTurn)
    end
  end.

End Chat.

End Engine.

(* ===================================================================== *)
(** ** The rest of the client: the health query, the keyboard handler of
    the input, the welcome screen, the selects of the settings panel *)
(* ===================================================================== *)

Module Health.

Import Api.

Module HealthResponse.
Record t : Type := mk {
  status : jsstring;
  rag_initialized : bool;
  llm_initialized : bool;
  verse_count : Z;
  esv_enabled : bool
}.
End HealthResponse.

(** A received response of the health endpoint: its status and what
    [json()] yields. *)
Record Response : Type := {
  status : N;
  json : Settled HealthResponse.t
}.

Definition ok (response : Response) : bool :=
  ((200 <=? status response) && (status response <=? 299))%N.

(** [fetch(`${API_BASE}/health`)]: a GET without headers or body. *)
Definition healthRequest : Request :=
  {| url := API_BASE ++ js "/health"; method := GET; headers := []; body := None |}.

Definition checkHealth {Net : Type}
  (fetch : Request -> Net -> Settled Response * Net) (net : Net)
  : Settled HealthResponse.t * Net :=
  match fetch healthRequest net with
  | (Threw e, net') => (Threw e, net')
  | (Fulfilled response, net') =>
    if negb (ok response) then (Threw (JsError (js "Health check failed")), net')
    else (json response, net')
  end.

End Health.

Module ChatInputKeys.

(** What [handleKeyDown] reads of the event. *)
Record KeyboardEvent : Type := { key : jsstring; shiftKey : bool }.

(** [handleKeyDown]: whether [preventDefault] is called, and what
    [handleSend] returns when it is run (no call of [onSend] and the text
    area as it is, when it is not). *)
Definition handleKeyDown (e : KeyboardEvent) (disabled : bool)
  (current : option ChatInput.Textarea)
  : bool * (option jsstring * option ChatInput.Textarea) :=
  if bool_decide (key e = js "Enter") && negb (shiftKey e)
  then (true, ChatInput.handleSend disabled current)
  else (false, (None, current)).

End ChatInputKeys.

Module WelcomeScreen.

Record Suggestion : Type := { text : jsstring; label : jsstring }.

Definition SUGGESTIONS : list Suggestion :=
  [ {| text := js "오늘 QT 추천해주세요"; label := js "오늘 QT 추천" |};
    {| text := js "What does the Bible say about anxiety?"; label := js "Bible & Anxiety" |};
    {| text := js "로마서 8:28의 의미를 설명해주세요"; label := js "로마서 8:28 해설" |};
    {| text := js "How should I pray according to Scripture?"; label := js "How to Pray" |};
    {| text := js "구원의 확신에 대해 성경은 뭐라고 하나요?"; label := js "구원의 확신" |};
    {| text := js "Explain the Trinity in simple terms"; label := js "The Trinity" |} ].

(** The buttons: the React key of each, and the argument with which its
    [onClick] calls [onAsk]. *)
Definition buttons : list (jsstring * jsstring) :=
  map (fun s => (label s, text s)) SUGGESTIONS.

End WelcomeScreen.

Module SettingsSelects.

Import SettingsPanel.

(** The [value] attributes of the options of the two translation selects. *)
Definition translationKrOptions : list jsstring := [ js "개역한글" ].
Definition translationEnOptions : list jsstring := [ js "ESV"; js "KJV" ].

(** The [value] of the denomination select: [preferences.denomination ?? ""]. *)
Definition denominationValue (preferences : UserPreferences.t) : jsstring :=
  match UserPreferences.denomination preferences with
  | Some v => v
  | None => []
  end.

(** A change of one of the three selects, with [e.target.value]. *)
Inductive Change : Type :=
| ChangeTranslationKr (targetValue : jsstring)
| ChangeTranslationEn (targetValue : jsstring)
| ChangeDenomination (targetValue : jsstring).

(** The argument of [onChange] for a change. *)
Definition onChange (preferences : UserPreferences.t) (ch : Change)
  : UserPreferences.t :=
  match ch with
  | ChangeTranslationKr v => onChangeTranslationKr preferences v
  | ChangeTranslationEn v => onChangeTranslationEn preferences v
  | ChangeDenomination v => onChangeDenomination preferences v
  end.

(** The change picks one of the options of its select. *)
Definition listed (ch : Change) : Prop :=
  match ch with
  | ChangeTranslationKr v => In v translationKrOptions
  | ChangeTranslationEn v => In v translationEnOptions
  | ChangeDenomination v => In v denominationOptions
  end.

End SettingsSelects.

(* ===================================================================== *)
(** * Properties *)
(* ===================================================================== *)

(** ** Strings *)

Section JsStringFacts.

Local Open Scope N_scope.


Lemma startsWith_app (p s : jsstring) : startsWith p (p ++ s) = true.
Proof.
induction p as [|a p IH]; [reflexivity|].
cbn. rewrite N.eqb_refl. exact IH.
Qed.

Lemma startsWith_inv (p s : jsstring) :
startsWith p s = true -> exists r, s = p ++ r.
Proof.
revert s. induction p as [|a p IH]; intros s H.
- exists s. reflexivity.
- destruct s as [|b s]; [discriminate|].
  cbn in H. apply andb_prop in H as [Hab Hps].
  apply N.eqb_eq in Hab. subst b.
  destruct (IH _ Hps) as [r ->]. exists r. reflexivity.
Qed.

Lemma includes_app (pre sub post : jsstring) :
includes (pre ++ sub ++ post) sub = true.
Proof.
induction pre as [|c pre IH].
- cbn [app]. destruct (sub ++ post) eqn:E; cbn [includes];
    rewrite <- ?E, startsWith_app; reflexivity.
- cbn [app includes]. rewrite IH. apply orb_true_r.
Qed.

Lemma trimStart_no_ws (s : jsstring) :
match trimStart s with
| [] => True
| c :: _ => isWhiteSpace c = false
end.
Proof.
induction s as [|c s IH]; cbn; [exact I|].
destruct (isWhiteSpace c) eqn:E; [exact IH | exact E].
Qed.

Lemma trimStart_idem (s : jsstring) : trimStart (trimStart s) = trimStart s.
Proof.
  pose proof (trimStart_no_ws s) as H.
  destruct (trimStart s) as [|c r]; [reflexivity|].
  cbn. rewrite H. reflexivity.
Qed.

Lemma trimStart_snoc (s : jsstring) (c : char16) :
  isWhiteSpace c = false -> trimStart (s ++ [c]) = trimStart s ++ [c].
Proof.
  intros Hc. induction s as [|a s IH]; cbn [app trimStart].
  - rewrite Hc. reflexivity.
  - destruct (isWhiteSpace a); [exact IH | reflexivity].
Qed.

Lemma trimEnd_cons (c : char16) (s : jsstring) :
  isWhiteSpace c = false -> trimEnd (c :: s) = c :: trimEnd s.
Proof.
  intros Hc. unfold trimEnd. cbn [rev].
  rewrite (trimStart_snoc _ _ Hc), rev_app_distr. reflexivity.
Qed.

Lemma trimEnd_idem (s : jsstring) : trimEnd (trimEnd s) = trimEnd s.
Proof.
  unfold trimEnd. rewrite rev_involutive, trimStart_idem. reflexivity.
Qed.

(** Trimming what is trimmed already changes nothing: the page may trim
    again what the input component has trimmed. *)
Lemma trim_idem (s : jsstring) : trim (trim s) = trim s.
Proof.
  unfold trim. pose proof (trimStart_no_ws s) as H.
  destruct (trimStart s) as [|c r]; [reflexivity|].
  rewrite (trimEnd_cons _ _ H). cbn [trimStart]. rewrite H.
  rewrite (trimEnd_cons _ _ H), trimEnd_idem. reflexivity.
Qed.

End JsStringFacts.

(** ** Global replacement *)

(** [Rewrites Frag s t]: [t] is [s] with some disjoint fragments [f]
    replaced by [out], where [Frag f out], and every code unit outside
    those fragments kept as it is, in place and in order. *)
Inductive Rewrites (Frag : jsstring -> jsstring -> Prop) : jsstring -> jsstring -> Prop :=
| Rewrites_nil : Rewrites Frag [] []
| Rewrites_keep c s t : Rewrites Frag s t -> Rewrites Frag (c :: s) (c :: t)
| Rewrites_frag f out s t :
    Frag f out -> Rewrites Frag s t -> Rewrites Frag (f ++ s) (out ++ t).

(** No fragment of the relation occurs anywhere in [s]. *)
Definition FragmentFree (Frag : jsstring -> jsstring -> Prop) (s : jsstring) : Prop :=
  forall pre f out post, s = pre ++ f ++ post -> ~ Frag f out.

Lemma FragmentFree_tail Frag c s :
  FragmentFree Frag (c :: s) -> FragmentFree Frag s.
Proof.
  intros H pre f out post E. apply (H (c :: pre) f out post).
  rewrite E. reflexivity.
Qed.

Lemma Rewrites_fragment_free Frag s t :
  FragmentFree Frag s -> Rewrites Frag s t -> t = s.
Proof.
  intros Hfree Hrw. induction Hrw as [|c s t Hrw IH|f out s t Hf Hrw IH].
  - reflexivity.
  - f_equal. apply IH. eapply FragmentFree_tail, Hfree.
  - exfalso. apply (Hfree [] f out s); [reflexivity | exact Hf].
Qed.

Section GlobalReplaceFacts.

Variable matchAt : jsstring -> option (jsstring * jsstring).
Hypothesis matchAt_shorter : forall s out rest,
  matchAt s = Some (out, rest) -> (length rest < length s)%nat.
Variable Frag : jsstring -> jsstring -> Prop.
Hypothesis matchAt_sound : forall s out rest,
  matchAt s = Some (out, rest) -> exists f, s = f ++ rest /\ Frag f out.

Lemma replaceAll_Rewrites (s : jsstring) :
  Rewrites Frag s (replaceAll matchAt matchAt_shorter s).
Proof.
  funelim (replaceAll matchAt matchAt_shorter s).
  - constructor.
  - destruct (matchAt_sound _ _ _ Hm) as (f & E & Hf).
    rewrite E. constructor; assumption.
  - constructor; assumption.
Qed.

Lemma replaceAll_fragment_free (s : jsstring) :
  FragmentFree Frag s -> replaceAll matchAt matchAt_shorter s = s.
Proof.
  intros Hfree. eapply Rewrites_fragment_free; [exact Hfree|].
  apply replaceAll_Rewrites.
Qed.

End GlobalReplaceFacts.

(** ** [formatContent] *)

Module FormatContentSpec.

Import ChatMessage.
Local Open Scope N_scope.

(** A bold fragment and what replaces it: two stars, text without line
    terminator, two stars. *)
Definition BoldFragment (f out : jsstring) : Prop :=
  exists inner,
    f = STARS ++ inner ++ STARS /\
    Forall (fun c => isLineTerminator c = false) inner /\
    out = boldTemplate inner.

(** A citation fragment and what replaces it: an opening bracket, [Bible]
    or [标步], a comma, white space, a non-empty reference without closing
    bracket, and the closing bracket. *)
Definition CitationFragment (f out : jsstring) : Prop :=
  exists name ws ref,
    (name = BIBLE \/ name = BIAOBU) /\
    Forall (fun c => isWhiteSpace c = true) ws /\
    ref <> [] /\
    Forall (fun c => c <> RBRACKET) ref /\
    f = [LBRACKET] ++ name ++ [COMMA] ++ ws ++ ref ++ [RBRACKET] /\
    out = citationTemplate name ref.

Lemma lazyThenStars_sound s group1 rest :
  lazyThenStars s = Some (group1, rest) ->
  s = group1 ++ STARS ++ rest /\ Forall (fun c => isLineTerminator c = false) group1.
Proof.
  revert group1 rest. induction s as [|c s IH]; intros group1 rest H; [discriminate|].
  cbn [lazyThenStars] in H.
  destruct (startsWith STARS (c :: s)) eqn:Es.
  - simplify_eq. apply startsWith_inv in Es as [r Er]. rewrite Er.
    split; [reflexivity | constructor].
  - destruct (isLineTerminator c) eqn:El; [discriminate|].
    destruct (lazyThenStars s) as [[g r]|] eqn:E; [|discriminate].
    simplify_eq. destruct (IH _ _ eq_refl) as [-> Hg].
    split; [reflexivity | constructor; assumption].
Qed.

Lemma boldReplacement_sound s out rest :
  boldReplacement s = Some (out, rest) ->
  exists f, s = f ++ rest /\ BoldFragment f out.
Proof.
  unfold boldReplacement, matchBold. intros H.
  destruct (startsWith STARS s) eqn:Es; [|discriminate].
  destruct (lazyThenStars (drop 2 s)) as [[g r]|] eqn:El; [|discriminate].
  simplify_eq. apply startsWith_inv in Es as [t ->].
  change (drop 2 (STARS ++ t)) with t in El.
  apply lazyThenStars_sound in El as [-> Hg].
  exists (STARS ++ g ++ STARS). split.
  - rewrite <- !app_assoc. reflexivity.
  - exists g. auto.
Qed.

Lemma restThenBracket_sound s group2 rest :
  restThenBracket s = Some (group2, rest) ->
  s = group2 ++ RBRACKET :: rest /\ Forall (fun c => c <> RBRACKET) group2.
Proof.
  revert group2 rest. induction s as [|c s IH]; intros group2 rest H; [discriminate|].
  cbn [restThenBracket] in H. destruct (c =? RBRACKET) eqn:Ec.
  - simplify_eq. apply N.eqb_eq in Ec as ->. split; [reflexivity | constructor].
  - destruct (restThenBracket s) as [[g r]|] eqn:E; [|discriminate].
    simplify_eq. destruct (IH _ _ eq_refl) as [-> Hg]. apply N.eqb_neq in Ec.
    split; [reflexivity | constructor; assumption].
Qed.

Lemma refThenBracket_sound s group2 rest :
  refThenBracket s = Some (group2, rest) ->
  s = group2 ++ RBRACKET :: rest /\ group2 <> [] /\
  Forall (fun c => c <> RBRACKET) group2.
Proof.
  destruct s as [|c s]; [discriminate|]. cbn [refThenBracket].
  destruct (c =? RBRACKET) eqn:Ec; [discriminate|].
  destruct (restThenBracket s) as [[g r]|] eqn:E; [|discriminate].
  intros H. simplify_eq. apply restThenBracket_sound in E as [-> Hg].
  apply N.eqb_neq in Ec.
  split; [reflexivity | split; [discriminate | constructor; assumption]].
Qed.

Lemma spacesThenRef_sound s group2 rest :
  spacesThenRef s = Some (group2, rest) ->
  exists ws,
    s = ws ++ group2 ++ RBRACKET :: rest /\
    Forall (fun c => isWhiteSpace c = true) ws /\
    group2 <> [] /\ Forall (fun c => c <> RBRACKET) group2.
Proof.
  revert group2 rest. induction s as [|c s IH]; intros group2 rest H; [discriminate|].
  cbn [spacesThenRef] in H.
  assert (Hdirect : refThenBracket (c :: s) = Some (group2, rest) ->
    exists ws, c :: s = ws ++ group2 ++ RBRACKET :: rest /\
      Forall (fun c => isWhiteSpace c = true) ws /\
      group2 <> [] /\ Forall (fun c => c <> RBRACKET) group2).
  { intros Hr. apply refThenBracket_sound in Hr as (E & Hne & Hg).
    exists []. split; [exact E | split; [constructor | split; assumption]]. }
  destruct (isWhiteSpace c) eqn:Ew; [|exact (Hdirect H)].
  destruct (spacesThenRef s) as [[g r]|] eqn:E; [|exact (Hdirect H)].
  simplify_eq. destruct (IH _ _ eq_refl) as (ws & -> & Hws & Hne & Hg).
  exists (c :: ws). split; [reflexivity | split; [constructor; assumption | split; assumption]].
Qed.

Lemma nameThenRef_sound name s group1 group2 rest :
  nameThenRef name s = Some (group1, group2, rest) ->
  group1 = name /\
  exists ws,
    s = name ++ [COMMA] ++ ws ++ group2 ++ [RBRACKET] ++ rest /\
    Forall (fun c => isWhiteSpace c = true) ws /\
    group2 <> [] /\ Forall (fun c => c <> RBRACKET) group2.
Proof.
  unfold nameThenRef. destruct (startsWith name s) eqn:Es; [|discriminate].
  apply startsWith_inv in Es as [t ->]. rewrite drop_app_length.
  destruct t as [|c t]; [discriminate|].
  destruct (c =? COMMA) eqn:Ec; [|discriminate].
  destruct (spacesThenRef t) as [[g r]|] eqn:E; [|discriminate].
  intros H. simplify_eq. split; [reflexivity|].
  apply N.eqb_eq in Ec as ->.
  apply spacesThenRef_sound in E as (ws & -> & Hws & Hne & Hg).
  exists ws. split; [reflexivity | split; [assumption | split; assumption]].
Qed.

Lemma citationReplacement_sound s out rest :
  citationReplacement s = Some (out, rest) ->
  exists f, s = f ++ rest /\ CitationFragment f out.
Proof.
  unfold citationReplacement.
  destruct (matchCitation s) as [[[g1 g2] r]|] eqn:E; [|discriminate].
  intros H. simplify_eq. unfold matchCitation in E.
  destruct s as [|c s]; [discriminate|].
  destruct (c =? LBRACKET) eqn:Ec; [|discriminate].
  apply N.eqb_eq in Ec as ->.
  assert (Hname : exists name, (name = BIBLE \/ name = BIAOBU) /\
                               nameThenRef name s = Some (g1, g2, rest)).
  { destruct (nameThenRef BIBLE s) as [m|] eqn:E1.
    - simplify_eq. exists BIBLE. auto.
    - exists BIAOBU. auto. }
  destruct Hname as (name & Hn & Hm).
  apply nameThenRef_sound in Hm as (-> & ws & -> & Hws & Hne & Hg).
  exists ([LBRACKET] ++ name ++ [COMMA] ++ ws ++ g2 ++ [RBRACKET]). split.
  - cbn [app]. f_equal. rewrite <- !app_assoc. cbn [app].
    do 2 f_equal. rewrite <- !app_assoc. reflexivity.
  - exists name, ws, g2. auto 10.
Qed.

(** Every bold fragment holds a star, every citation fragment an opening
    bracket: a text without one of them is free of the fragment. *)
Lemma BoldFragment_star f out : BoldFragment f out -> In STAR f.
Proof. intros (inner & -> & _). left. reflexivity. Qed.

Lemma CitationFragment_bracket f out : CitationFragment f out -> In LBRACKET f.
Proof. intros (name & ws & ref & _ & _ & _ & _ & -> & _). left. reflexivity. Qed.

Lemma FragmentFree_without (Frag : jsstring -> jsstring -> Prop) (c : char16) s :
  (forall f out, Frag f out -> In c f) -> ~ In c s -> FragmentFree Frag s.
Proof.
  intros Hin Hnot pre f out post -> Hf. apply Hnot.
  apply in_or_app. right. apply in_or_app. left. exact (Hin _ _ Hf).
Qed.

End FormatContentSpec.

Section FormatContent.

Import ChatMessage FormatContentSpec.

(** C9.  [formatContent] is a function of its argument alone, and what it
    returns is its argument with bold fragments replaced by their
    [<strong>] element and then citation fragments replaced by their
    [<span>] element, every code unit outside the replaced fragments
    kept unchanged and in place.  On a text that holds no bold fragment
    and no citation fragment it is the identity. *)
Theorem formatContent_keeps_text_outside_fragments (text : jsstring) :
  (exists html,
     Rewrites BoldFragment text html /\
     Rewrites CitationFragment html (formatContent text)) /\
  (FragmentFree BoldFragment text ->
   FragmentFree CitationFragment text ->
   formatContent text = text).
Proof.
  split.
  - exists (replaceAll boldReplacement boldReplacement_shorter text). split.
    + apply replaceAll_Rewrites, boldReplacement_sound.
    + apply replaceAll_Rewrites, citationReplacement_sound.
  - intros Hbold Hcite. unfold formatContent.
    rewrite (replaceAll_fragment_free _ _ _ boldReplacement_sound _ Hbold).
    apply (replaceAll_fragment_free _ _ _ citationReplacement_sound _ Hcite).
Qed.

Lemma formatContent_keeps_text_outside_fragments_witness :
  FragmentFree BoldFragment (js "Love is patient, love is kind.") /\
  FragmentFree CitationFragment (js "Love is patient, love is kind.") /\
  formatContent (js "Love is patient, love is kind.")
  = js "Love is patient, love is kind.".
Proof.
  assert (Hb : FragmentFree BoldFragment (js "Love is patient, love is kind.")).
  { apply (FragmentFree_without _ STAR); [exact BoldFragment_star|].
    vm_compute. intuition discriminate. }
  assert (Hc : FragmentFree CitationFragment (js "Love is patient, love is kind.")).
  { apply (FragmentFree_without _ LBRACKET); [exact CitationFragment_bracket|].
    vm_compute. intuition discriminate. }
  split; [exact Hb | split; [exact Hc|]].
  exact (proj2 (formatContent_keeps_text_outside_fragments _) Hb Hc).
Defined.

(** The two replacements at work on an answer of the assistant. *)
Example formatContent_answer :
  formatContent (js "**Peace** [Bible,John 14:27]")
  = js "<strong class=" ++ [QUOTE] ++ js "text-gold-300" ++ [QUOTE]
      ++ js ">Peace</strong> <span class=" ++ [QUOTE]
      ++ js "text-gold-300 font-medium" ++ [QUOTE]
      ++ js ">[Bible, John 14:27]</span>".
Proof. vm_compute. reflexivity. Qed.

End FormatContent.

(** ** The settings panel *)

Section Settings.

Import SettingsPanel.

(** C10.  [update] writes the given value under the given key and leaves
    the value under every other key as it was; the denomination select
    stores null for the empty string and the chosen string otherwise, so
    null for its first option and the option's value for the five others,
    and touches neither translation. *)
Theorem update_changes_only_its_key
  (preferences : UserPreferences.t) (key : Key) (value : option jsstring) :
  get (update preferences key value) key = value /\
  (forall other, other <> key ->
     get (update preferences key value) other = get preferences other) /\
  UserPreferences.denomination (onChangeDenomination preferences []) = None /\
  (forall c v, UserPreferences.denomination (onChangeDenomination preferences (c :: v))
               = Some (c :: v)) /\
  (forall v, UserPreferences.translation_kr (onChangeDenomination preferences v)
               = UserPreferences.translation_kr preferences /\
             UserPreferences.translation_en (onChangeDenomination preferences v)
               = UserPreferences.translation_en preferences) /\
  Forall (fun v => UserPreferences.denomination (onChangeDenomination preferences v)
                   = match v with [] => None | _ :: _ => Some v end)
         denominationOptions.
Proof.
  split; [destruct key; reflexivity|].
  split; [intros other Hne; destruct key, other; try reflexivity; contradiction|].
  split; [reflexivity|].
  split; [reflexivity|].
  split; [intros v; split; reflexivity|].
  repeat constructor.
Qed.

Lemma update_changes_only_its_key_witness :
  key_denomination <> key_translation_en /\
  get (update (Page.preferences Page.initial) key_translation_en (Some (js "KJV")))
      key_denomination
  = get (Page.preferences Page.initial) key_denomination.
Proof.
  split; [discriminate|].
  apply (proj1 (proj2 (update_changes_only_its_key
                         (Page.preferences Page.initial) key_translation_en
                         (Some (js "KJV"))))).
  discriminate.
Defined.

End Settings.

(** ** The transport layer *)

Section TransportFacts.

Import Api.
Context {Net : Type}.
Variable fetch : Request -> Net -> Settled Response * Net.

(** C1.  The chat entry point takes a message, an optional session id and
    the preferences; it posts them, as they are, to the chat endpoint, and
    when the answer is ok and holds a chat response it returns that
    response, which holds the answer text, the session id, the sources and
    the retrieval mode. *)
Theorem sendMessage_returns_chat_response
  (message : jsstring) (session_id : option jsstring)
  (preferences : UserPreferences.t) (net net' : Net)
  (response : Response) (result : ChatResponse.t) :
  let payload := ChatRequest.mk message session_id preferences in
  fetch (chatRequest payload) net = (Fulfilled response, net') ->
  ok response = true ->
  json response = Fulfilled result ->
  method (chatRequest payload) = POST /\
  url (chatRequest payload) = API_BASE ++ js "/chat" /\
  body (chatRequest payload) = Some (ChatRequest.mk message session_id preferences) /\
  sendMessage fetch payload net = (Fulfilled result, net') /\
  exists text sessionId sources mode language model usage,
    result = ChatResponse.mk text sessionId language sources mode model usage.
Proof.
  intros payload Hfetch Hok Hjson.
  split; [reflexivity|]. split; [reflexivity|]. split; [reflexivity|].
  split.
  - unfold sendMessage. rewrite Hfetch, Hok. cbn. rewrite Hjson. reflexivity.
  - destruct result as [text sid language sources mode model usage].
    exists text, sid, sources, mode, language, model, usage. reflexivity.
Qed.

(** A failed status makes [sendMessage] throw its server error. *)
Lemma sendMessage_not_ok (payload : ChatRequest.t) (net net' : Net)
  (response : Response) :
  fetch (chatRequest payload) net = (Fulfilled response, net') ->
  ok response = false ->
  sendMessage fetch payload net = (Threw (serverError response), net').
Proof.
  intros Hfetch Hok. unfold sendMessage. rewrite Hfetch, Hok. reflexivity.
Qed.

End TransportFacts.

Section TransportExamples.

Import Api.

(** A server that answers every request with the given response. *)
Definition constantServer (response : Response)
  : Request -> unit -> Response * unit :=
  fun _ net => (response, net).

Definition someResponse : ChatResponse.t :=
  ChatResponse.mk (js "For God so loved the world") (js "s-1") (js "en")
    [] rag (js "m") {| input_tokens := 12; output_tokens := 7 |}.

Definition okAnswer : Response :=
  {| status := 200; text := []; json := Fulfilled someResponse |}.

Lemma sendMessage_returns_chat_response_witness :
  sendMessage (answering (constantServer okAnswer))
    (ChatRequest.mk (js "John 3:16") None (Page.preferences Page.initial)) tt
  = (Fulfilled someResponse, tt).
Proof.
  apply (sendMessage_returns_chat_response (answering (constantServer okAnswer))
           (js "John 3:16") None (Page.preferences Page.initial) tt tt
           okAnswer someResponse); reflexivity.
Defined.

End TransportExamples.

(** ** The page *)

Section PageFacts.

Import Api Page.

Lemma errorMessage_truthy (err : Thrown) : truthy (errorMessage err) = true.
Proof.
  assert (Htry : forall m, truthy (TRY_AGAIN ++ m) = true).
  { intros m. destruct (TRY_AGAIN ++ m) eqn:E; [|reflexivity].
    apply app_eq_nil in E as [E _]. vm_compute in E. discriminate E. }
  destruct err as [message|]; cbn [errorMessage]; [|apply Htry].
  destruct (includes message (js "Failed to fetch")); [reflexivity | apply Htry].
Qed.

Lemma hasMessages_app (st : State) (ms : list Message.t) (m : Message.t) :
  messages st = ms ++ [m] -> hasMessages st = true.
Proof.
  intros E. unfold hasMessages. rewrite E, length_app.
  apply Nat.ltb_lt. cbn [length]. lia.
Qed.

Lemma handleSendBegin_passes (st : State) (input : jsstring) (stamp : Stamp) :
  truthy (trim input) = true -> isLoading st = false ->
  handleSendBegin st input stamp =
  ({| messages := messages st ++ [userMsg input stamp];
      isLoading := true;
      sessionId := sessionId st;
      preferences := preferences st;
      error := None |},
   Some (ChatRequest.mk (trim input) (sessionId st) (preferences st))).
Proof.
  intros Ht Hl. unfold handleSendBegin. rewrite Ht, Hl. reflexivity.
Qed.

(** An answer whose body happens to contain ["Failed to fetch"] is shown
    with the text for a server that cannot be reached. *)
Lemma errorMessage_failed_to_fetch (pre post : jsstring) :
  errorMessage (JsError (pre ++ js "Failed to fetch" ++ post)) = CANNOT_CONNECT.
Proof. cbn [errorMessage]. rewrite includes_app. reflexivity. Qed.

Context {Net : Type}.
Variable fetch : Request -> Net -> Settled Response * Net.

(** C3.  When the chat call is answered with a status that is not ok,
    [sendMessage] throws an error whose message carries the status and
    the body of the answer; [handleSend] then ends with the user's
    message as the only new message (no assistant message), not loading,
    with a non-empty error text in the state, and the page shows that
    text in its error box.  Unless the thrown message contains
    ["Failed to fetch"], the text shown ends with the thrown message. *)
Theorem failed_status_is_reported
  (st : State) (input : jsstring) (stampUser stampBot : Stamp)
  (net net' : Net) (response : Response) :
  truthy (trim input) = true ->
  isLoading st = false ->
  fetch (chatRequest (ChatRequest.mk (trim input) (sessionId st) (preferences st))) net
    = (Fulfilled response, net') ->
  ok response = false ->
  let thrown :=
    js "Server error " ++ numberToString (status response) ++ js ": " ++ text response in
  let st' := fst (handleSend fetch st input stampUser stampBot net) in
  sendMessage fetch (ChatRequest.mk (trim input) (sessionId st) (preferences st)) net
    = (Threw (JsError thrown), net') /\
  messages st' = messages st ++ [userMsg input stampUser] /\
  Message.role (userMsg input stampUser) = user /\
  isLoading st' = false /\
  error st' = Some (errorMessage (JsError thrown)) /\
  errorMessage (JsError thrown) <> [] /\
  render st' = Chat (map ChatMessage.render (messages st')) false
                    (Some (errorMessage (JsError thrown))) /\
  (includes thrown (js "Failed to fetch") = false ->
   errorMessage (JsError thrown) = TRY_AGAIN ++ thrown).
Proof.
  intros Ht Hl Hfetch Hok thrown st'.
  pose proof (sendMessage_not_ok fetch _ _ _ _ Hfetch Hok) as Hsend.
  assert (Est : st' = handleSendSettle
                        {| messages := messages st ++ [userMsg input stampUser];
                           isLoading := true;
                           sessionId := sessionId st;
                           preferences := preferences st;
                           error := None |}
                        (Threw (JsError thrown)) stampBot).
  { subst st'. unfold handleSend. rewrite (handleSendBegin_passes _ _ _ Ht Hl).
    rewrite Hsend. reflexivity. }
  pose proof (errorMessage_truthy (JsError thrown)) as Htruthy.
  split; [exact Hsend|].
  split; [rewrite Est; reflexivity|].
  split; [reflexivity|].
  split; [rewrite Est; reflexivity|].
  split; [rewrite Est; reflexivity|].
  split; [intros E; rewrite E in Htruthy; discriminate|].
  split.
  - unfold render. rewrite (hasMessages_app st' (messages st) (userMsg input stampUser))
      by (rewrite Est; reflexivity).
    rewrite Est. cbn [error isLoading handleSendSettle]. rewrite Htruthy. reflexivity.
  - intros Hinc. cbn [errorMessage]. rewrite Hinc. reflexivity.
Qed.

End PageFacts.

Section PageExamples.

Import Api Page.

Definition notFound : Response :=
  {| status := 503; text := js "index unavailable"; json := Threw NotAnError |}.

Definition stamp1 : Stamp := {| uuid := js "u-1"; now := 1000 |}.
Definition stamp2 : Stamp := {| uuid := js "u-2"; now := 2000 |}.
Definition stamp3 : Stamp := {| uuid := js "u-3"; now := 3000 |}.
Definition stamp4 : Stamp := {| uuid := js "u-4"; now := 4000 |}.

Lemma failed_status_is_reported_witness :
  error (fst (handleSend (answering (constantServer notFound)) initial
                (js " John 3:16 ") stamp1 stamp2 tt))
  = Some (TRY_AGAIN ++ js "Server error 503: index unavailable").
Proof.
  pose proof (failed_status_is_reported (answering (constantServer notFound))
                initial (js " John 3:16 ") stamp1 stamp2 tt tt notFound
                eq_refl eq_refl eq_refl eq_refl) as H.
  cbv zeta in H.
  destruct H as (_ & _ & _ & _ & Herr & _ & _ & Hshown).
  rewrite Herr, Hshown; vm_compute; reflexivity.
Defined.

End PageExamples.

(** ** Clearing a session *)

Section ClearSession.

Import Api.

Lemma clear_lookup (store : Engine.SessionStore) (sessionId k : jsstring) :
  Engine.clear store sessionId !! k =
  if decide (sessionId = k)
  then (fun s => {| Engine.turns := []; Engine.prefs := Engine.prefs s |}) <$> store !! sessionId
  else store !! k.
Proof. unfold Engine.clear. apply lookup_alter. Qed.

Lemma clear_idempotent (store : Engine.SessionStore) (sessionId : jsstring) :
  Engine.clear (Engine.clear store sessionId) sessionId = Engine.clear store sessionId.
Proof.
  apply map_eq. intros k. rewrite !clear_lookup.
  destruct (decide (sessionId = k)) as [->|Hne]; [|reflexivity].
  rewrite decide_True by reflexivity.
  destruct (store !! k); reflexivity.
Qed.

(** C4.  For every session id, [clearSession] is fulfilled, whatever the
    response of the server to the DELETE request and whatever its status,
    and so is a second call right after the first.  On the side of the
    engine, [clear] is total: afterwards the history of the session is
    empty, clearing again changes nothing, and clearing a session that
    does not exist leaves the store as it is. *)
Theorem clearSession_always_succeeds {Net : Type}
  (serve : Request -> Net -> Response * Net)
  (sessionId : jsstring) (net : Net) (store : Engine.SessionStore) :
  fst (clearSession (answering serve) sessionId net) = Fulfilled tt /\
  fst (clearSession (answering serve) sessionId
         (snd (clearSession (answering serve) sessionId net))) = Fulfilled tt /\
  Engine.history (Engine.clear store sessionId) sessionId = [] /\
  Engine.clear (Engine.clear store sessionId) sessionId = Engine.clear store sessionId /\
  Engine.clear (Engine.deleteSession store sessionId) sessionId
    = Engine.deleteSession store sessionId.
Proof.
  assert (Hc : forall n, fst (clearSession (answering serve) sessionId n) = Fulfilled tt).
  { intros n. unfold clearSession, answering.
    destruct (serve (deleteRequest sessionId) n). reflexivity. }
  split; [apply Hc|]. split; [apply Hc|]. split; [|split].
  - unfold Engine.history. rewrite clear_lookup, decide_True by reflexivity.
    destruct (store !! sessionId); reflexivity.
  - apply clear_idempotent.
  - unfold Engine.clear, Engine.deleteSession. apply alter_delete_eq.
Qed.

(** What [clearSession] does not absorb is a rejection of [fetch]
    itself, when no response comes back at all. *)
Lemma clearSession_passes_rejection {Net : Type}
  (fetch : Request -> Net -> Settled Response * Net)
  (sessionId : jsstring) (net net' : Net) (e : Thrown) :
  fetch (deleteRequest sessionId) net = (Threw e, net') ->
  clearSession fetch sessionId net = (Threw e, net').
Proof. intros H. unfold clearSession. rewrite H. reflexivity. Qed.

End ClearSession.

(** ** The client as a transition system *)

Section ClientFacts.

Import Api Page.

Lemma run_app (c : Client) (evs1 evs2 : list Event) :
  run c (evs1 ++ evs2) =
  let (c1, log1) := run c evs1 in
  let (c2, log2) := run c1 evs2 in
  (c2, log1 ++ log2).
Proof.
  revert c. induction evs1 as [|ev evs1 IH]; intros c; cbn [run app].
  - destruct (run c evs2). reflexivity.
  - destruct (step c ev) as [c' log]. rewrite IH.
    destruct (run c' evs1) as [c1 log1]. destruct (run c1 evs2) as [c2 log2].
    rewrite app_assoc. reflexivity.
Qed.

(** An invariant of the steps holds after every run. *)
Lemma run_invariant (P : Client -> Prop) :
  (forall c ev, P c -> P (fst (step c ev))) ->
  forall evs c, P c -> P (fst (run c evs)).
Proof.
  intros Hstep evs. induction evs as [|ev evs IH]; intros c Hc; [exact Hc|].
  cbn [run]. pose proof (Hstep c ev Hc) as Hc'.
  destruct (step c ev) as [c' log]. specialize (IH c' Hc').
  destruct (run c' evs) as [c'' log']. exact IH.
Qed.

(** The guard of [handleSend] in the page. *)
Lemma handleSendBegin_guard (st : State) (input : jsstring) (stamp : Stamp) :
  trim input = [] \/ isLoading st = true ->
  handleSendBegin st input stamp = (st, None).
Proof.
  intros [E|E]; unfold handleSendBegin; rewrite E; [reflexivity|].
  rewrite orb_true_r. reflexivity.
Qed.


(** In every state either nothing is loading and nothing is in flight, or
    the page is loading and one request is in flight. *)
Definition OneInFlight (c : Client) : Prop :=
  length (inflight c) = if isLoading (page c) then 1 else 0.



(** X19.  Outside the guard the send button does send: the trimmed
    content of the text area goes out with the session id and the
    preferences of the page, the text area is emptied, and the page is
    loading. *)
Lemma PressSend_sends (c : Client) (stamp : Stamp) :
  truthy (trim (ChatInput.value (textarea c))) = true ->
  isLoading (page c) = false ->
  snd (step c (PressSend stamp)) =
    [Sent (ChatRequest.mk (trim (ChatInput.value (textarea c)))
             (sessionId (page c)) (preferences (page c)))] /\
  textarea (fst (step c (PressSend stamp)))
    = {| ChatInput.value := []; ChatInput.height := js "auto" |} /\
  isLoading (page (fst (step c (PressSend stamp)))) = true.
Proof.
  intros Ht Hl. cbn [step]. unfold ChatInput.handleSend. rewrite Ht, Hl. cbn [negb orb].
  unfold ask, handleSendBegin. rewrite trim_idem, Ht, Hl. cbn. auto.
Qed.

End ClientFacts.

Section Guard.

Import Api Page.





End Guard.

Section Modes.

Import Api Page.






End Modes.

Section SessionIds.

Import Api Page.

(** Every request of the log carries the session id of the latest
    response before it, and null when there is none. *)
Definition CarriesLatestId (log : list Action) : Prop :=
  forall pre payload post,
    log = pre ++ Sent payload :: post ->
    ChatRequest.session_id payload = lastSessionId pre.

Lemma lastSessionId_snoc (log : list Action) (a : Action) :
  lastSessionId (log ++ [a]) =
  match a with
  | Received response => Some (ChatResponse.session_id response)
  | _ => lastSessionId log
  end.
Proof.
  induction log as [|b log IH]; cbn [app lastSessionId].
  - destruct a; reflexivity.
  - rewrite IH. destruct a; try reflexivity.
Qed.

Lemma CarriesLatestId_snoc (log : list Action) (a : Action) :
  CarriesLatestId log ->
  (forall payload, a = Sent payload ->
     ChatRequest.session_id payload = lastSessionId log) ->
  CarriesLatestId (log ++ [a]).
Proof.
  intros Hlog Ha pre payload post E.
  destruct post as [|x post _] using rev_ind.
  - apply (app_inj_tail log pre) in E as [-> ->]. apply Ha. reflexivity.
  - change (pre ++ Sent payload :: post ++ [x])
      with (pre ++ (Sent payload :: post) ++ [x]) in E.
    rewrite app_assoc in E. apply app_inj_tail in E as [-> _].
    apply (Hlog pre payload post). reflexivity.
Qed.

(** The log so far and the session id that the page holds. *)
Definition InStep (log : list Action) (c : Client) : Prop :=
  CarriesLatestId log /\ sessionId (page c) = lastSessionId log.

Lemma ask_InStep (log : list Action) (c : Client) (input : jsstring)
  (stamp : Stamp) (ta : ChatInput.Textarea) :
  InStep log c ->
  InStep (log ++ snd (ask c input stamp ta)) (fst (ask c input stamp ta)).
Proof.
  intros [Hlog Hid]. unfold ask, handleSendBegin.
  destruct (negb (truthy (trim input)) || isLoading (page c)); cbn.
  - rewrite app_nil_r. split; assumption.
  - split.
    + apply CarriesLatestId_snoc; [exact Hlog|].
      intros payload E. injection E as <-. exact Hid.
    + rewrite lastSessionId_snoc. exact Hid.
Qed.

Lemma step_InStep (log : list Action) (c : Client) (ev : Event) :
  InStep log c -> InStep (log ++ snd (step c ev)) (fst (step c ev)).
Proof.
  intros H. destruct ev as [input stamp|input scrollHeight|stamp|result stamp|prefs]; cbn [step].
  - apply ask_InStep, H.
  - cbn. rewrite app_nil_r. exact H.
  - destruct (ChatInput.handleSend (isLoading (page c)) (Some (textarea c)))
      as [[value|] [ta|]]; try (cbn; rewrite app_nil_r; exact H).
    apply ask_InStep, H.
  - destruct (inflight c) as [|r pending]; [cbn; rewrite app_nil_r; exact H|].
    destruct H as [Hlog Hid]. destruct result as [response|err]; cbn.
    + split; [|rewrite lastSessionId_snoc; reflexivity].
      apply CarriesLatestId_snoc; [exact Hlog | discriminate].
    + split; [|rewrite lastSessionId_snoc; exact Hid].
      apply CarriesLatestId_snoc; [exact Hlog | discriminate].
  - cbn. rewrite app_nil_r. exact H.
Qed.

Lemma run_InStep (evs : list Event) (log : list Action) (c : Client) :
  InStep log c -> InStep (log ++ snd (run c evs)) (fst (run c evs)).
Proof.
  revert log c. induction evs as [|ev evs IH]; intros log c H; cbn [run].
  - cbn. rewrite app_nil_r. exact H.
  - pose proof (step_InStep log c ev H) as Hs.
    destruct (step c ev) as [c' l]. cbn [fst snd] in Hs.
    specialize (IH _ _ Hs). destruct (run c' evs) as [c'' l']. cbn [fst snd] in *.
    rewrite app_assoc. exact IH.
Qed.


End SessionIds.

(** ** The engine *)

Section EngineFacts.

Import Engine.

Lemma getOrCreate_unknown (store : SessionStore) (sessionId : option jsstring)
  (preferences : UserPreferences.t) :
  sessionId = None \/ (exists k, sessionId = Some k /\ store !! k = None) ->
  store !! fresh (dom store) = None /\
  getOrCreate store sessionId preferences =
    (<[fresh (dom store) := {| turns := []; prefs := preferences |}]> store,
     fresh (dom store),
     {| turns := []; prefs := preferences |}).
Proof.
  intros H. split.
  - apply not_elem_of_dom, is_fresh.
  - unfold getOrCreate. destruct H as [->|(k & -> & Hk)]; [reflexivity|].
    rewrite Hk. reflexivity.
Qed.

Lemma getOrCreate_known (store : SessionStore) (k : jsstring) (s : Session)
  (preferences : UserPreferences.t) :
  store !! k = Some s ->
  getOrCreate store (Some k) preferences = (store, k, s).
Proof. intros H. unfold getOrCreate. rewrite H. reflexivity. Qed.

Lemma getOrCreate_lookup (store store' : SessionStore) (sessionId : option jsstring)
  (preferences : UserPreferences.t) (k : jsstring) (s : Session) :
  getOrCreate store sessionId preferences = (store', k, s) ->
  store' !! k = Some s.
Proof.
  unfold getOrCreate. intros H.
  destruct sessionId as [k0|]; [destruct (store !! k0) as [s0|] eqn:E|];
    simplify_eq; try assumption; apply lookup_insert_eq.
Qed.

Lemma appendTurn_lookup (store : SessionStore) (k : jsstring) (t : Turn) (s : Session) :
  store !! k = Some s ->
  appendTurn store k t !! k = Some {| turns := turns s ++ [t]; prefs := prefs s |}.
Proof. intros H. unfold appendTurn. rewrite lookup_alter_eq, H. reflexivity. Qed.

Lemma recentWindow_all (window : nat) (ts : list Turn) :
  length ts <= window -> recentWindow window ts = ts.
Proof.
  intros H. unfold recentWindow.
  replace (length ts - window) with 0 by lia. reflexivity.
Qed.

Variable threshold : Q.
Variable window : nat.
Variable retrieve : jsstring -> option (list Candidate).
Variable expand : list Candidate -> list Source.t.
Variable generate : Payload -> option jsstring.

Local Abbreviation chat := (Engine.chat threshold window retrieve expand generate).
Local Abbreviation chatPayload := (Engine.chatPayload threshold window retrieve expand).
Local Abbreviation assemble := (Engine.assemble window expand).

(** What a successful call of [chat] has done. *)
Lemma chat_success (store store' : SessionStore) (message : jsstring)
  (sessionId : option jsstring) (preferences : UserPreferences.t) (result : ChatResult) :
  chat store message sessionId preferences = (inr result, store') ->
  exists candidates store0 session answer,
    let k := Engine.sessionId result in
    let mode := route threshold candidates in
    retrieve message = Some candidates /\
    getOrCreate store sessionId preferences = (store0, k, session) /\
    chatPayload store message sessionId preferences
      = Some (assemble mode candidates session message preferences) /\
    generate (assemble mode candidates session message preferences) = Some answer /\
    result = {| text := answer; sessionId := k;
                resultSources := attachSources mode candidates;
                resultMode := mode |} /\
    history store' k =
      turns session
        ++ [ {| role := user; content := message; sources := []; mode := mode |};
             {| role := assistant; content := answer;
                sources := attachSources mode candidates; mode := mode |} ].
Proof.
  unfold Engine.chat, Engine.chatPayload. intros H.
  destruct (retrieve message) as [candidates|]; [|discriminate].
  destruct (getOrCreate store sessionId preferences) as [[store0 k] session] eqn:Eg.
  destruct (generate _) as [answer|] eqn:Egen; [|discriminate].
  simplify_eq. exists candidates, store0, session, answer. cbn.
  split; [reflexivity|]. split; [reflexivity|]. split; [reflexivity|].
  split; [exact Egen|]. split; [reflexivity|].
  apply getOrCreate_lookup in Eg. unfold history.
  rewrite (appendTurn_lookup _ _ _ _ (appendTurn_lookup _ _ _ _ Eg)). cbn.
  rewrite <- app_assoc. reflexivity.
Qed.



(** C7.  When the engine answers in the ungrounded mode, the result
    carries no source, and neither does either turn recorded for the
    exchange; the assistant message that the page makes from such a
    response then holds an empty source list, and its bubble is rendered
    without a source list. *)
Theorem ungrounded_turn_has_no_sources
  (store store' : SessionStore) (message : jsstring) (sessionId : option jsstring)
  (preferences : UserPreferences.t) (result : ChatResult)
  (language model : jsstring) (usage : Api.Usage) (st : Page.State) (stamp : Page.Stamp) :
  chat store message sessionId preferences = (inr result, store') ->
  resultMode result = conversational ->
  let response :=
    Api.ChatResponse.mk (text result) (Engine.sessionId result) language
      (resultSources result) (resultMode result) model usage in
  let st' := Page.handleSendSettle st (Api.Fulfilled response) stamp in
  resultSources result = [] /\
  (exists earlier userTurn assistantTurn,
     history store' (Engine.sessionId result) = earlier ++ [userTurn; assistantTurn] /\
     mode userTurn = conversational /\ sources userTurn = [] /\
     mode assistantTurn = conversational /\ sources assistantTurn = []) /\
  Page.messages st' = Page.messages st ++ [Page.botMsg response stamp] /\
  Message.retrieval_mode (Page.botMsg response stamp) = Some conversational /\
  Message.sources (Page.botMsg response stamp) = Some [] /\
  ChatMessage.render (Page.botMsg response stamp)
    = ChatMessage.AssistantBubble (ChatMessage.formatContent (text result)) None.
Proof.
  intros Hchat Hmode response st'.
  destruct (chat_success _ _ _ _ _ _ Hchat)
    as (candidates & store0 & session & answer & _ & _ & _ & _ & Hr & Hh).
  cbv zeta in Hr, Hh.
  assert (Hroute : route threshold candidates = conversational).
  { rewrite Hr in Hmode. exact Hmode. }
  rewrite Hroute in Hr, Hh. cbn [attachSources] in Hr, Hh.
  assert (Hs : resultSources result = []) by (rewrite Hr; reflexivity).
  split; [exact Hs|]. split.
  - eexists _, _, _. split; [exact Hh|]. cbn. auto.
  - subst response st'. cbn. rewrite Hs, Hmode. auto.
Qed.

(** Whatever its mode, a message without sources, or with an empty list of
    them, is rendered without a source list. *)
Lemma render_without_sources (m : Message.t) :
  Message.sources m = None \/ Message.sources m = Some [] ->
  match ChatMessage.render m with
  | ChatMessage.UserBubble _ => True
  | ChatMessage.AssistantBubble _ sourceList => sourceList = None
  end.
Proof.
  intros H. unfold ChatMessage.render.
  destruct (Message.role m); [exact I|]. destruct H as [-> | ->]; reflexivity.
Qed.

(** Two chats, the second under the session id that the first returned:
    the second generation request holds both turns of the first exchange,
    and the session then holds four turns in the order of the
    conversation. *)
Lemma two_chats_in_one_session
  (store store1 store2 : SessionStore) (message1 message2 : jsstring)
  (preferences : UserPreferences.t) (result1 result2 : ChatResult) :
  chat store message1 None preferences = (inr result1, store1) ->
  chat store1 message2 (Some (Engine.sessionId result1)) preferences
    = (inr result2, store2) ->
  2 <= window ->
  Engine.sessionId result2 = Engine.sessionId result1 /\
  exists u1 a1 u2 a2 payload,
    role u1 = user /\ content u1 = message1 /\
    role a1 = assistant /\ content a1 = text result1 /\
    role u2 = user /\ content u2 = message2 /\
    role a2 = assistant /\ content a2 = text result2 /\
    history store1 (Engine.sessionId result1) = [u1; a1] /\
    chatPayload store1 message2 (Some (Engine.sessionId result1)) preferences
      = Some payload /\
    priorTurns payload = [u1; a1] /\
    newMessage payload = message2 /\
    history store2 (Engine.sessionId result1) = [u1; a1; u2; a2].
Proof.
  intros H1 H2 Hw.
  destruct (chat_success _ _ _ _ _ _ H1)
    as (c1 & s01 & sess1 & ans1 & _ & Hg1 & _ & _ & Hr1 & Hh1).
  destruct (chat_success _ _ _ _ _ _ H2)
    as (c2 & s02 & sess2 & ans2 & _ & Hg2 & Hp2 & _ & Hr2 & Hh2).
  cbv zeta in *.
  destruct (getOrCreate_unknown store None preferences (or_introl eq_refl)) as [_ Hnew].
  rewrite Hnew in Hg1. injection Hg1 as _ _ <-. cbn [turns app] in Hh1.
  assert (Hl : store1 !! Engine.sessionId result1 =
               Some {| turns := history store1 (Engine.sessionId result1);
                       prefs := preferences |}).
  { clear -H1 Hnew. unfold Engine.chat in H1.
    destruct (retrieve message1); [|discriminate]. rewrite Hnew in H1.
    destruct (generate _); [|discriminate]. simplify_eq. cbn [Engine.sessionId].
    unfold history.
    rewrite (appendTurn_lookup _ _ _ _ (appendTurn_lookup _ _ _ _ (lookup_insert_eq _ _ _))).
    reflexivity. }
  rewrite (getOrCreate_known _ _ _ _ Hl) in Hg2.
  injection Hg2 as _ Hk <-. cbn [turns] in Hh2, Hp2.
  split; [symmetry; exact Hk|].
  rewrite <- Hk in Hh2. rewrite Hh1 in Hh2, Hp2.
  exists {| role := user; content := message1; sources := [];
            mode := route threshold c1 |},
         {| role := assistant; content := ans1;
            sources := attachSources (route threshold c1) c1;
            mode := route threshold c1 |},
         {| role := user; content := message2; sources := [];
            mode := route threshold c2 |},
         {| role := assistant; content := ans2;
            sources := attachSources (route threshold c2) c2;
            mode := route threshold c2 |}.
  eexists.
  repeat (split; [reflexivity|]).
  split; [rewrite Hr1; reflexivity|].
  repeat (split; [reflexivity|]).
  split; [rewrite Hr2; reflexivity|].
  split; [exact Hh1|]. split; [exact Hp2|].
  split; [cbn [priorTurns Engine.assemble]; apply recentWindow_all; cbn [length]; lia|].
  split; [reflexivity|]. exact Hh2.
Qed.

End EngineFacts.

(** ** The conversation, turn by turn *)

Section Conversation.

Import Api Page.

Lemma handleSend_fulfilled {Net : Type}
  (fetch : Request -> Net -> Settled Response * Net)
  (st : State) (input : jsstring) (stampUser stampBot : Stamp)
  (net net' : Net) (response : Response) (result : ChatResponse.t) :
  truthy (trim input) = true ->
  isLoading st = false ->
  fetch (chatRequest (ChatRequest.mk (trim input) (sessionId st) (preferences st))) net
    = (Fulfilled response, net') ->
  ok response = true ->
  json response = Fulfilled result ->
  handleSend fetch st input stampUser stampBot net =
  ({| messages := (messages st ++ [userMsg input stampUser]) ++ [botMsg result stampBot];
      isLoading := false;
      sessionId := Some (ChatResponse.session_id result);
      preferences := preferences st;
      error := None |}, net').
Proof.
  intros Ht Hl Hfetch Hok Hjson. unfold handleSend.
  rewrite (handleSendBegin_passes _ _ _ Ht Hl).
  unfold sendMessage. rewrite Hfetch, Hok. cbn [negb]. rewrite Hjson. reflexivity.
Qed.

(** Every step leaves the messages it finds in place and at most adds
    some after them. *)
Lemma step_appends (c : Client) (ev : Event) :
  exists new, messages (page (fst (step c ev))) = messages (page c) ++ new.
Proof.
  assert (Hask : forall input stamp ta,
    exists new, messages (page (fst (ask c input stamp ta))) = messages (page c) ++ new).
  { intros input stamp ta. unfold ask, handleSendBegin.
    destruct (negb (truthy (trim input)) || isLoading (page c)); cbn.
    - exists []. rewrite app_nil_r. reflexivity.
    - eexists. reflexivity. }
  assert (Hsame : exists new : list Message.t, messages (page c) = messages (page c) ++ new).
  { exists []. rewrite app_nil_r. reflexivity. }
  destruct ev as [input stamp|input scrollHeight|stamp|result stamp|prefs]; cbn [step].
  - apply Hask.
  - exact Hsame.
  - destruct (ChatInput.handleSend (isLoading (page c)) (Some (textarea c)))
      as [[value|] [ta|]]; try exact Hsame.
    apply Hask.
  - destruct (inflight c) as [|r pending]; [exact Hsame|].
    destruct result as [response|err]; cbn; [eexists; reflexivity | exact Hsame].
  - exact Hsame.
Qed.

Lemma two_exchanges (input1 input2 : jsstring) (result1 result2 : ChatResponse.t)
  (s1 s2 s3 s4 : Stamp) :
  truthy (trim input1) = true ->
  truthy (trim input2) = true ->
  messages (page (fst (run start [Suggest input1 s1; Settle (Fulfilled result1) s2;
                                  Suggest input2 s3; Settle (Fulfilled result2) s4])))
  = [userMsg input1 s1; botMsg result1 s2; userMsg input2 s3; botMsg result2 s4].
Proof.
  intros H1 H2. cbn [run step]. unfold ask, handleSendBegin. cbn.
  rewrite H1. cbn. rewrite H2. reflexivity.
Qed.

Variable threshold : Q.
Variable window : nat.
Variable retrieve : jsstring -> option (list Engine.Candidate).
Variable expand : list Engine.Candidate -> list Source.t.
Variable generate : Engine.Payload -> option jsstring.

Local Abbreviation chat := (Engine.chat threshold window retrieve expand generate).
Local Abbreviation chatPayload := (Engine.chatPayload threshold window retrieve expand).

(** C6.  On the page, a successful exchange adds the user message and
    then the assistant message after the messages already there, every
    step of the client only ever adds messages at the end, and two
    successful exchanges from the start leave four messages in the order
    user, assistant, user, assistant.  In the engine, the second of two
    chats in one session builds its generation request with both turns of
    the first exchange as prior turns (for a recent window of at least
    two turns), and the session then holds the four turns in order. *)
Theorem exchanges_append_in_order :
  (forall (Net : Type) (fetch : Request -> Net -> Settled Response * Net)
          (st : State) (input : jsstring) (stampUser stampBot : Stamp)
          (net net' : Net) (response : Response) (result : ChatResponse.t),
     truthy (trim input) = true ->
     isLoading st = false ->
     fetch (chatRequest (ChatRequest.mk (trim input) (sessionId st) (preferences st))) net
       = (Fulfilled response, net') ->
     ok response = true ->
     json response = Fulfilled result ->
     messages (fst (handleSend fetch st input stampUser stampBot net))
       = messages st ++ [userMsg input stampUser; botMsg result stampBot] /\
     Message.role (userMsg input stampUser) = user /\
     Message.role (botMsg result stampBot) = assistant) /\
  (forall c ev, exists new,
     messages (page (fst (step c ev))) = messages (page c) ++ new) /\
  (forall input1 input2 result1 result2 s1 s2 s3 s4,
     truthy (trim input1) = true ->
     truthy (trim input2) = true ->
     messages (page (fst (run start [Suggest input1 s1; Settle (Fulfilled result1) s2;
                                     Suggest input2 s3; Settle (Fulfilled result2) s4])))
     = [userMsg input1 s1; botMsg result1 s2; userMsg input2 s3; botMsg result2 s4]) /\
  (forall store store1 store2 message1 message2 preferences result1 result2,
     chat store message1 None preferences = (inr result1, store1) ->
     chat store1 message2 (Some (Engine.sessionId result1)) preferences
       = (inr result2, store2) ->
     2 <= window ->
     exists u1 a1 u2 a2 payload,
       Engine.role u1 = user /\ Engine.content u1 = message1 /\
       Engine.role a1 = assistant /\ Engine.content a1 = Engine.text result1 /\
       Engine.role u2 = user /\ Engine.content u2 = message2 /\
       Engine.role a2 = assistant /\ Engine.content a2 = Engine.text result2 /\
       chatPayload store1 message2 (Some (Engine.sessionId result1)) preferences
         = Some payload /\
       Engine.priorTurns payload = [u1; a1] /\
       Engine.history store2 (Engine.sessionId result1) = [u1; a1; u2; a2] /\
       length (Engine.history store2 (Engine.sessionId result1)) = 4).
Proof.
  split; [|split; [exact step_appends | split; [exact two_exchanges|]]].
  - intros Net fetch st input su sb net net' response result Ht Hl Hf Hok Hj.
    rewrite (handleSend_fulfilled fetch st input su sb net net' response result
               Ht Hl Hf Hok Hj).
    cbn [fst messages]. rewrite <- app_assoc. auto.
  - intros store store1 store2 m1 m2 prefs r1 r2 H1 H2 Hw.
    destruct (two_chats_in_one_session threshold window retrieve expand generate
                _ _ _ _ _ _ _ _ H1 H2 Hw)
      as (_ & u1 & a1 & u2 & a2 & payload & Hu1 & Hc1 & Ha1 & Hd1 & Hu2 & Hc2
          & Ha2 & Hd2 & _ & Hp & Hprior & _ & Hh).
    exists u1, a1, u2, a2, payload. rewrite Hh. auto 15.
Qed.

End Conversation.

(** ** A small engine to run the statements on *)

Section Demo.

Import Engine.

Definition john316 : Source.t :=
  Source.mk (js "For God so loved the world") (js "John 3:16") (js "요한복음 3:16")
    (js "ESV") (js "John") (js "요한복음") 3 16 (Some 1%Q).

(** A question that names John is answered by an exact hit; any other
    finds one candidate, of score one tenth. *)
Definition demoRetrieve (message : jsstring) : option (list Candidate) :=
  if includes message (js "John") then Some [ {| verse := john316; score := 1 |} ]
  else Some [ {| verse := john316; score := 1 # 10 |} ].

Definition demoExpand (candidates : list Candidate) : list Source.t :=
  map verse candidates.

Definition demoGenerate (payload : Payload) : option jsstring :=
  Some (js "Grace and peace.").

Definition demoChat :=
  Engine.chat (1 # 4) 10 demoRetrieve demoExpand demoGenerate.

Definition demoPreferences : UserPreferences.t := Page.preferences Page.initial.




Definition nonsenseResult : ChatResult :=
  {| text := js "Grace and peace."; sessionId := [];
     resultSources := []; resultMode := conversational |}.

Lemma ungrounded_turn_has_no_sources_witness :
  ChatMessage.render
    (Page.botMsg
       (Api.ChatResponse.mk (text nonsenseResult) (sessionId nonsenseResult) (js "en")
          (resultSources nonsenseResult) (resultMode nonsenseResult) (js "m")
          {| Api.input_tokens := 9; Api.output_tokens := 4 |})
       stamp2)
  = ChatMessage.AssistantBubble (ChatMessage.formatContent (js "Grace and peace.")) None.
Proof.
  pose proof (ungrounded_turn_has_no_sources (1 # 4) 10 demoRetrieve demoExpand
                demoGenerate ∅
                (snd (demoChat ∅ (js "zzxcvqwer nonsense") None demoPreferences))
                (js "zzxcvqwer nonsense") None demoPreferences nonsenseResult
                (js "en") (js "m") {| Api.input_tokens := 9; Api.output_tokens := 4 |}
                Page.initial stamp2) as H.
  cbv zeta in H. apply H; vm_compute; reflexivity.
Defined.

(** The grounded counterpart: an exact reference is answered with its
    source attached. *)
Example grounded_turn_has_sources :
  fst (demoChat ∅ (js "John 3:16") None demoPreferences)
  = inr {| text := js "Grace and peace."; sessionId := [];
           resultSources := [john316]; resultMode := rag |}.
Proof. vm_compute. reflexivity. Qed.

Definition firstResult : ChatResult :=
  {| text := js "Grace and peace."; sessionId := [];
     resultSources := [john316]; resultMode := rag |}.

Definition store1 : SessionStore :=
  snd (demoChat ∅ (js "John 3:16") None demoPreferences).

Lemma exchanges_append_in_order_witness :
  Page.messages
    (Page.page
       (fst (Page.run Page.start
               [Page.Suggest (js "John 3:16") stamp1;
                Page.Settle (Api.Fulfilled someResponse) stamp2;
                Page.Suggest (js " and verse 17? ") stamp3;
                Page.Settle (Api.Fulfilled someResponse) stamp4])))
  = [Page.userMsg (js "John 3:16") stamp1; Page.botMsg someResponse stamp2;
     Page.userMsg (js " and verse 17? ") stamp3; Page.botMsg someResponse stamp4] /\
  length (history (snd (demoChat store1 (js "and verse 17?") (Some []) demoPreferences)) [])
  = 4.
Proof.
  destruct (exchanges_append_in_order (1 # 4) 10 demoRetrieve demoExpand demoGenerate)
    as (_ & _ & Hpage & Hengine).
  split.
  - apply Hpage; reflexivity.
  - destruct (Hengine ∅ store1
                (snd (demoChat store1 (js "and verse 17?") (Some []) demoPreferences))
                (js "John 3:16") (js "and verse 17?") demoPreferences firstResult
                nonsenseResult)
      as (u1 & a1 & u2 & a2 & payload & H).
    + vm_compute. reflexivity.
    + vm_compute. reflexivity.
    + lia.
    + apply H.
Defined.

End Demo.

(* ===================================================================== *)
(** * Further properties of the client *)
(* ===================================================================== *)

(** ** The three calls of the transport layer *)

Section TransportOutcomes.

Import Api.
Context {Net : Type}.

(** X1.  [sendMessage] calls [fetch] once and leaves the network as that
    call leaves it.  It is fulfilled exactly when [fetch] resolves with an
    ok status and the body is a chat response, and then with that
    response; it throws exactly the rejection of [fetch], or the server
    error of an answer that is not ok, or the rejection of [json()] on an
    ok answer. *)
Theorem sendMessage_outcome
  (fetch : Request -> Net -> Settled Response * Net)
  (payload : ChatRequest.t) (net : Net) :
  snd (sendMessage fetch payload net) = snd (fetch (chatRequest payload) net) /\
  (forall result,
     fst (sendMessage fetch payload net) = Fulfilled result <->
     exists response,
       fst (fetch (chatRequest payload) net) = Fulfilled response /\
       ok response = true /\ json response = Fulfilled result) /\
  (forall e,
     fst (sendMessage fetch payload net) = Threw e <->
     fst (fetch (chatRequest payload) net) = Threw e \/
     exists response,
       fst (fetch (chatRequest payload) net) = Fulfilled response /\
       ((ok response = false /\ e = serverError response) \/
        (ok response = true /\ json response = Threw e))).
Proof.
  unfold sendMessage.
  destruct (fetch (chatRequest payload) net) as [[response|e0] net'] eqn:Ef; cbn [fst snd].
  - assert (Hsame : forall r, Fulfilled r = Fulfilled response -> r = response)
      by (intros r Hr; congruence).
    destruct (ok response) eqn:Hok; cbn [negb fst snd].
    + split; [reflexivity|]. split.
      * intros result. split.
        -- intros H. exists response. auto.
        -- intros (r & Hr & _ & Hj). symmetry in Hr. apply Hsame in Hr. subst r. exact Hj.
      * intros e. split.
        -- intros H. right. exists response. auto.
        -- intros [H|(r & Hr & Hcase)]; [discriminate|].
           symmetry in Hr. apply Hsame in Hr. subst r.
           destruct Hcase as [[H _]|[_ H]]; [congruence | exact H].
    + split; [reflexivity|]. split.
      * intros result. split; [discriminate|].
        intros (r & Hr & H & _). symmetry in Hr. apply Hsame in Hr. subst r. congruence.
      * intros e. split.
        -- intros H. right. exists response. split; [reflexivity|]. left.
           split; [exact Hok | congruence].
        -- intros [H|(r & Hr & Hcase)]; [discriminate|].
           symmetry in Hr. apply Hsame in Hr. subst r.
           destruct Hcase as [[_ ->]|[H _]]; [reflexivity | congruence].
  - split; [reflexivity|]. split.
    + intros result. split; [discriminate|]. intros (r & Hr & _). discriminate.
    + intros e. split; [intros H; left; congruence|].
      intros [H|(r & Hr & _)]; [congruence | discriminate].
Qed.

(** X2.  [clearSession] sends one DELETE without body to the address of
    the session, and different session ids give different addresses.  It
    is fulfilled exactly when [fetch] resolves, whatever the status, and
    it throws exactly what [fetch] rejects with. *)
Theorem clearSession_outcome
  (fetch : Request -> Net -> Settled Response * Net)
  (sessionId : jsstring) (net : Net) :
  method (deleteRequest sessionId) = DELETE /\
  body (deleteRequest sessionId) = None /\
  (forall other, url (deleteRequest other) = url (deleteRequest sessionId) ->
                 other = sessionId) /\
  snd (clearSession fetch sessionId net) = snd (fetch (deleteRequest sessionId) net) /\
  (fst (clearSession fetch sessionId net) = Fulfilled tt <->
   exists response, fst (fetch (deleteRequest sessionId) net) = Fulfilled response) /\
  (forall e, fst (clearSession fetch sessionId net) = Threw e <->
             fst (fetch (deleteRequest sessionId) net) = Threw e).
Proof.
  split; [reflexivity|]. split; [reflexivity|]. split.
  { intros other H. cbn [url deleteRequest] in H.
    apply app_inv_head in H. apply app_inv_head in H. exact H. }
  unfold clearSession.
  destruct (fetch (deleteRequest sessionId) net) as [[response|e0] net'];
    cbn [fst snd]; (split; [reflexivity|]); split.
  - split; [eauto | reflexivity].
  - intros e. split; discriminate.
  - split; [discriminate | intros [r Hr]; discriminate].
  - intros e. split; congruence.
Qed.

(** X3.  [checkHealth] sends one GET to the health address.  It is
    fulfilled exactly when [fetch] resolves with an ok status and the body
    is a health response; for every answer that is not ok it throws the
    same error, ["Health check failed"], which carries neither the status
    nor the body. *)
Theorem checkHealth_outcome
  (fetch : Request -> Net -> Settled Health.Response * Net) (net : Net) :
  method Health.healthRequest = GET /\
  url Health.healthRequest = API_BASE ++ js "/health" /\
  snd (Health.checkHealth fetch net) = snd (fetch Health.healthRequest net) /\
  (forall health,
     fst (Health.checkHealth fetch net) = Fulfilled health <->
     exists response,
       fst (fetch Health.healthRequest net) = Fulfilled response /\
       Health.ok response = true /\ Health.json response = Fulfilled health) /\
  (forall response,
     fst (fetch Health.healthRequest net) = Fulfilled response ->
     Health.ok response = false ->
     fst (Health.checkHealth fetch net) = Threw (JsError (js "Health check failed"))) /\
  (forall e,
     fst (fetch Health.healthRequest net) = Threw e ->
     fst (Health.checkHealth fetch net) = Threw e).
Proof.
  split; [reflexivity|]. split; [reflexivity|].
  unfold Health.checkHealth.
  destruct (fetch Health.healthRequest net) as [[response|e0] net'] eqn:Ef; cbn [fst snd].
  - assert (Hsame : forall r, Fulfilled r = Fulfilled response -> r = response)
      by (intros r Hr; congruence).
    destruct (Health.ok response) eqn:Hok; cbn [negb fst snd].
    + split; [reflexivity|]. split; [|split].
      * intros health. split; [intros H; exists response; auto|].
        intros (r & Hr & _ & Hj). symmetry in Hr. apply Hsame in Hr. subst r. exact Hj.
      * intros r Hr H. symmetry in Hr. apply Hsame in Hr. subst r. congruence.
      * discriminate.
    + split; [reflexivity|]. split; [|split].
      * intros health. split; [discriminate|].
        intros (r & Hr & H & _). symmetry in Hr. apply Hsame in Hr. subst r. congruence.
      * reflexivity.
      * discriminate.
  - split; [reflexivity|]. split; [|split].
    + intros health. split; [discriminate | intros (r & Hr & _); discriminate].
    + discriminate.
    + intros e H. congruence.
Qed.

End TransportOutcomes.

Section TransportOutcomeExamples.

Import Api.

Definition badBody : Response :=
  {| status := 200; text := js "<html>"; json := Threw (JsError (js "Unexpected token <")) |}.

Lemma sendMessage_outcome_witness :
  fst (sendMessage (answering (constantServer badBody))
         (ChatRequest.mk (js "John 3:16") None (Page.preferences Page.initial)) tt)
  = Threw (JsError (js "Unexpected token <")).
Proof.
  apply (proj2 (proj2 (sendMessage_outcome (answering (constantServer badBody))
                         (ChatRequest.mk (js "John 3:16") None
                            (Page.preferences Page.initial)) tt))).
  right. exists badBody. split; [reflexivity|]. right. split; reflexivity.
Defined.

Lemma clearSession_outcome_witness :
  fst (clearSession (answering (constantServer notFound)) (js "s-1") tt) = Fulfilled tt.
Proof.
  apply (proj1 (proj2 (proj2 (proj2 (proj2
           (clearSession_outcome (answering (constantServer notFound)) (js "s-1") tt)))))).
  exists notFound. reflexivity.
Defined.

Definition healthDown : Health.Response :=
  {| Health.status := 503; Health.json := Threw NotAnError |}.

Lemma checkHealth_outcome_witness :
  fst (Health.checkHealth (fun _ net => (Fulfilled healthDown, net)) tt)
  = Threw (JsError (js "Health check failed")).
Proof.
  apply (proj1 (proj2 (proj2 (proj2 (proj2
           (checkHealth_outcome (fun _ net => (Fulfilled healthDown, net)) tt)))))
           healthDown); reflexivity.
Defined.

End TransportOutcomeExamples.

(** ** Blank input and the classification of errors *)

Section BlankAndErrors.

Import Api Page.

Lemma includes_occurs (s sub : jsstring) :
  includes s sub = true -> exists pre post, s = pre ++ sub ++ post.
Proof.
  induction s as [|c s IH]; cbn [includes]; intros H.
  - rewrite orb_false_r in H. apply startsWith_inv in H as [r Hr].
    exists [], r. exact Hr.
  - apply orb_prop in H as [H|H].
    + apply startsWith_inv in H as [r Hr]. exists [], r. exact Hr.
    + destruct (IH H) as (pre & post & ->). exists (c :: pre), post. reflexivity.
Qed.

Lemma trimStart_split (s : jsstring) :
  exists pre, s = pre ++ trimStart s /\ Forall (fun c => isWhiteSpace c = true) pre.
Proof.
  induction s as [|c s (pre & E & Hpre)]; cbn [trimStart].
  - exists []. split; [reflexivity | constructor].
  - destruct (isWhiteSpace c) eqn:Ec.
    + exists (c :: pre). split; [cbn; f_equal; exact E | constructor; assumption].
    + exists []. split; [reflexivity | constructor].
Qed.

Lemma trimEnd_split (s : jsstring) :
  exists post, s = trimEnd s ++ post /\ Forall (fun c => isWhiteSpace c = true) post.
Proof.
  destruct (trimStart_split (rev s)) as (pre & E & Hpre).
  exists (rev pre). split.
  - unfold trimEnd. rewrite <- rev_app_distr, <- E, rev_involutive. reflexivity.
  - apply Forall_rev. exact Hpre.
Qed.

Lemma trimStart_blank (s : jsstring) :
  Forall (fun c => isWhiteSpace c = true) s -> trimStart s = [].
Proof.
  induction 1 as [|c s Hc _ IH]; cbn [trimStart]; [reflexivity|].
  rewrite Hc. exact IH.
Qed.

Lemma trim_split (s : jsstring) :
  exists pre post,
    s = pre ++ trim s ++ post /\
    Forall (fun c => isWhiteSpace c = true) pre /\
    Forall (fun c => isWhiteSpace c = true) post.
Proof.
  destruct (trimStart_split s) as (pre & E1 & Hpre).
  destruct (trimEnd_split (trimStart s)) as (post & E2 & Hpost).
  exists pre, post. unfold trim. rewrite <- E2. auto.
Qed.

Lemma trim_blank_iff (s : jsstring) :
  trim s = [] <-> Forall (fun c => isWhiteSpace c = true) s.
Proof.
  split.
  - intros E. destruct (trim_split s) as (pre & post & Es & Hpre & Hpost).
    rewrite E in Es. rewrite Es. apply Forall_app. auto.
  - intros H. unfold trim. rewrite (trimStart_blank _ H). reflexivity.
Qed.

Lemma trim_ends (s : jsstring) :
  (forall c r, trim s = c :: r -> isWhiteSpace c = false) /\
  (forall r c, trim s = r ++ [c] -> isWhiteSpace c = false).
Proof.
  split.
  - intros c r E. unfold trim in E. pose proof (trimStart_no_ws s) as H.
    destruct (trimStart s) as [|a t]; [discriminate|].
    rewrite (trimEnd_cons _ _ H) in E. congruence.
  - intros r c E. unfold trim, trimEnd in E.
    pose proof (trimStart_no_ws (rev (trimStart s))) as H.
    apply (f_equal (@rev N)) in E. rewrite rev_involutive, rev_app_distr in E.
    cbn in E. rewrite E in H. exact H.
Qed.

(** X4.  The guard of the page's [handleSend] returns without any effect
    exactly when the text consists of white space only (or is empty) or a
    request is pending.  Otherwise the message it hands to [sendMessage]
    is the text without the white space before and after it: it is not
    empty, and its first and its last code unit are no white space. *)
Theorem handleSend_blank_or_trimmed (st : State) (input : jsstring) (stamp : Stamp) :
  (handleSendBegin st input stamp = (st, None) <->
   Forall (fun c => isWhiteSpace c = true) input \/ isLoading st = true) /\
  (forall st' payload,
     handleSendBegin st input stamp = (st', Some payload) ->
     exists pre post first middle last,
       input = pre ++ ChatRequest.message payload ++ post /\
       Forall (fun c => isWhiteSpace c = true) pre /\
       Forall (fun c => isWhiteSpace c = true) post /\
       (ChatRequest.message payload = [first] \/
        ChatRequest.message payload = first :: middle ++ [last]) /\
       isWhiteSpace first = false /\
       (ChatRequest.message payload = first :: middle ++ [last] ->
        isWhiteSpace last = false)).
Proof.
  split.
  - split.
    + unfold handleSendBegin.
      destruct (truthy (trim input)) eqn:Et; cbn [negb orb].
      * destruct (isLoading st) eqn:El; [auto | discriminate].
      * intros _. left. apply trim_blank_iff.
        destruct (trim input); [reflexivity | discriminate].
    + intros [H|H]; apply handleSendBegin_guard; [left | right; exact H].
      apply trim_blank_iff, H.
  - intros st' payload H. unfold handleSendBegin in H.
    destruct (negb (truthy (trim input)) || isLoading st) eqn:Eg; [discriminate|].
    assert (Em : ChatRequest.message payload = trim input) by (simplify_eq; reflexivity).
    apply orb_false_elim in Eg as [Et _]. apply negb_false_iff in Et.
    destruct (trim_split input) as (pre & post & Es & Hpre & Hpost).
    destruct (trim_ends input) as [Hfirst Hlast].
    rewrite Em. destruct (trim input) as [|first rest] eqn:Etrim; [discriminate|].
    destruct rest as [|x rest _] using rev_ind.
    + exists pre, post, first, [], first. repeat split; auto.
      * exact (Hfirst _ _ eq_refl).
      * intros E. apply (f_equal (@length N)) in E. cbn in E. lia.
    + exists pre, post, first, rest, x. repeat split; auto.
      * exact (Hfirst _ _ eq_refl).
      * intros _. exact (Hlast (first :: rest) x eq_refl).
Qed.

Lemma handleSend_blank_or_trimmed_witness :
  handleSendBegin initial (js "  ") stamp1 = (initial, None).
Proof.
  apply (proj1 (handleSend_blank_or_trimmed initial (js "  ") stamp1)).
  left. repeat constructor.
Defined.

(** X5.  The [catch] block shows the text for a server that cannot be
    reached exactly when what was thrown is an [Error] whose message holds
    ["Failed to fetch"] somewhere; for every other [Error] it shows the
    retry text followed by the message, and for a thrown value that is no
    [Error] the retry text followed by ["Unknown error"]. *)
Theorem errorMessage_classifies (err : Thrown) :
  (errorMessage err = CANNOT_CONNECT <->
   exists pre post, err = JsError (pre ++ js "Failed to fetch" ++ post)) /\
  (errorMessage err <> CANNOT_CONNECT ->
   errorMessage err
   = TRY_AGAIN ++ match err with
                  | JsError message => message
                  | NotAnError => js "Unknown error"
                  end).
Proof.
  assert (Hdiff : forall m, TRY_AGAIN ++ m <> CANNOT_CONNECT).
  { intros m E. vm_compute in E. discriminate E. }
  destruct err as [message|]; cbn [errorMessage].
  - destruct (includes message (js "Failed to fetch")) eqn:Ei.
    + split; [|intros H; contradiction].
      split; [intros _|reflexivity].
      destruct (includes_occurs _ _ Ei) as (pre & post & ->). eauto.
    + split; [|reflexivity]. split.
      * intros E. destruct (Hdiff _ E).
      * intros (pre & post & E).
        assert (Em : message = pre ++ js "Failed to fetch" ++ post) by congruence.
        rewrite Em, includes_app in Ei. discriminate.
  - split; [|reflexivity]. split.
    + intros E. destruct (Hdiff _ E).
    + intros (pre & post & E). discriminate.
Qed.

Lemma errorMessage_classifies_witness :
  errorMessage (JsError (js "TypeError: Failed to fetch")) = CANNOT_CONNECT.
Proof.
  apply (proj1 (errorMessage_classifies (JsError (js "TypeError: Failed to fetch")))).
  exists (js "TypeError: "), []. reflexivity.
Defined.

End BlankAndErrors.

(** ** The keyboard of the input *)

Section Keyboard.

Import ChatInputKeys.

(** X6.  [handleKeyDown] prevents the default action exactly for an Enter
    without Shift.  It calls [onSend] exactly for an Enter without Shift
    while the input is not disabled and the text area holds more than
    white space, and then with the trimmed content, after which the text
    area is empty with automatic height; in every other case the text
    area is left as it is. *)
Theorem handleKeyDown_sends_iff
  (e : KeyboardEvent) (disabled : bool) (textarea : ChatInput.Textarea) :
  (fst (handleKeyDown e disabled (Some textarea)) = true <->
   key e = js "Enter" /\ shiftKey e = false) /\
  (forall v,
     fst (snd (handleKeyDown e disabled (Some textarea))) = Some v <->
     key e = js "Enter" /\ shiftKey e = false /\ disabled = false /\
     trim (ChatInput.value textarea) <> [] /\ v = trim (ChatInput.value textarea)) /\
  (fst (snd (handleKeyDown e disabled (Some textarea))) = None ->
   snd (snd (handleKeyDown e disabled (Some textarea))) = Some textarea) /\
  (fst (snd (handleKeyDown e disabled (Some textarea))) <> None ->
   snd (snd (handleKeyDown e disabled (Some textarea)))
   = Some {| ChatInput.value := []; ChatInput.height := js "auto" |}).
Proof.
  unfold handleKeyDown, ChatInput.handleSend.
  destruct (bool_decide (key e = js "Enter")) eqn:Ek;
    [apply bool_decide_eq_true in Ek | apply bool_decide_eq_false in Ek];
    destruct (shiftKey e) eqn:Es; cbn [andb negb fst snd];
    try (split; [split; [discriminate | intros [? ?]; congruence]|];
         split; [intros v; split; [discriminate | intros (? & ? & _); congruence]|];
         split; [reflexivity | congruence]).
  split; [split; [intros _; split; [exact Ek | reflexivity] | reflexivity]|].
  destruct (trim (ChatInput.value textarea)) as [|c r] eqn:Et; cbn [truthy negb orb fst snd].
  - split; [intros v; split; [discriminate | intros (_ & _ & _ & H & _); congruence]|].
    split; [reflexivity | congruence].
  - destruct disabled; cbn [fst snd].
    + split; [intros v; split; [discriminate | intros (_ & _ & H & _); congruence]|].
      split; [reflexivity | congruence].
    + split; [|split; [discriminate | reflexivity]].
      intros v. split.
      * intros H. split; [exact Ek|]. split; [reflexivity|]. split; [reflexivity|].
        split; [discriminate | congruence].
      * intros (_ & _ & _ & _ & ->). reflexivity.
Qed.

Lemma handleKeyDown_sends_iff_witness :
  fst (snd (handleKeyDown {| key := js "Enter"; shiftKey := false |} false
              (Some {| ChatInput.value := js " Psalm 23 "; ChatInput.height := js "48px" |})))
  = Some (js "Psalm 23").
Proof.
  apply (proj1 (proj2 (handleKeyDown_sends_iff
                         {| key := js "Enter"; shiftKey := false |} false
                         {| ChatInput.value := js " Psalm 23 ";
                            ChatInput.height := js "48px" |}))).
  split; [reflexivity|]. split; [reflexivity|]. split; [reflexivity|].
  split; [vm_compute; discriminate | vm_compute; reflexivity].
Defined.

End Keyboard.

(** ** What every reachable state of the page satisfies *)

Section Reachable.

Import Api Page.

(** The last message is the question that the request carries. *)
Definition LastIsQuestion (ms : list Message.t) (req : ChatRequest.t) : Prop :=
  exists earlier u,
    ms = earlier ++ [u] /\ Message.role u = user /\
    Message.content u = ChatRequest.message req.

(** Every assistant message comes right after a user message. *)
Definition Answered (ms : list Message.t) : Prop :=
  forall before a after,
    ms = before ++ a :: after -> Message.role a = assistant ->
    exists earlier u, before = earlier ++ [u] /\ Message.role u = user.

(** A user message holds a trimmed, non-empty text and nothing else. *)
Definition PlainQuestion (m : Message.t) : Prop :=
  Message.role m = user ->
  Message.content m <> [] /\ trim (Message.content m) = Message.content m /\
  Message.sources m = None /\ Message.retrieval_mode m = None.

Record Inv (c : Client) : Prop := {
  inv_flight : OneInFlight c;
  inv_loading :
    isLoading (page c) = true ->
    error (page c) = None /\
    exists req, inflight c = [req] /\ LastIsQuestion (messages (page c)) req /\
                ChatRequest.session_id req = sessionId (page c);
  inv_error :
    forall e, error (page c) = Some e -> truthy e = true /\ messages (page c) <> [];
  inv_fresh :
    messages (page c) = [] ->
    isLoading (page c) = false /\ error (page c) = None /\
    sessionId (page c) = None /\ inflight c = [];
  inv_shape : Answered (messages (page c));
  inv_users : Forall PlainQuestion (messages (page c))
}.

Lemma Answered_snoc (ms : list Message.t) (m : Message.t) :
  Answered ms ->
  (Message.role m = assistant ->
   exists earlier u, ms = earlier ++ [u] /\ Message.role u = user) ->
  Answered (ms ++ [m]).
Proof.
  intros Hms Hm before a after E Ha.
  destruct after as [|x after _] using rev_ind.
  - apply (app_inj_tail ms before) in E as [-> ->]. apply Hm, Ha.
  - change (before ++ a :: after ++ [x]) with (before ++ (a :: after) ++ [x]) in E.
    rewrite app_assoc in E. apply app_inj_tail in E as [-> _].
    apply (Hms before a after); [reflexivity | exact Ha].
Qed.

Lemma start_Inv : Inv start.
Proof.
  split; cbn.
  - reflexivity.
  - discriminate.
  - discriminate.
  - auto.
  - intros [|? ?] a after E; discriminate E.
  - constructor.
Qed.

Lemma truthy_not_nil (s : jsstring) : truthy s = true <-> s <> [].
Proof. destruct s; cbn; split; congruence. Qed.

(** An accepted or refused [handleSend] of the page keeps the invariant,
    whatever becomes of the text area. *)
Lemma ask_Inv (c : Client) (input : jsstring) (stamp : Stamp) (ta : ChatInput.Textarea) :
  Inv c -> Inv (fst (ask c input stamp ta)).
Proof.
  intros [Hf Hl He Hn Hs Hu]. unfold ask, handleSendBegin.
  destruct (truthy (trim input)) eqn:Et; cbn [negb orb].
  2:{ cbn. rewrite app_nil_r. split; assumption. }
  destruct (isLoading (page c)) eqn:El.
  { cbn. rewrite app_nil_r. split; cbn; rewrite ?El; assumption. }
  assert (Hnil : inflight c = []).
  { unfold OneInFlight in Hf. rewrite El in Hf. destruct (inflight c); [reflexivity|discriminate]. }
  cbn. rewrite Hnil. split; cbn.
  - reflexivity.
  - intros _. split; [reflexivity|]. eexists. split; [reflexivity|]. split; [|reflexivity].
    exists (messages (page c)), (userMsg input stamp). auto.
  - discriminate.
  - intros E. destruct (app_cons_not_nil _ _ _ (eq_sym E)).
  - apply Answered_snoc; [exact Hs|]. discriminate.
  - apply Forall_app. split; [exact Hu|]. constructor; [|constructor].
    intros _. cbn. split; [apply truthy_not_nil, Et|].
    split; [apply trim_idem|]. auto.
Qed.

Lemma step_Inv (c : Client) (ev : Event) : Inv c -> Inv (fst (step c ev)).
Proof.
  intros H. destruct ev as [input stamp|input scrollHeight|stamp|result stamp|prefs];
    cbn [step].
  - apply ask_Inv, H.
  - destruct H; split; assumption.
  - destruct (ChatInput.handleSend (isLoading (page c)) (Some (textarea c)))
      as [[value|] [ta|]]; try exact H.
    apply ask_Inv, H.
  - destruct (inflight c) as [|r pending] eqn:Ei; [exact H|].
    destruct H as [Hf Hl He Hn Hs Hu].
    assert (El : isLoading (page c) = true).
    { unfold OneInFlight in Hf. rewrite Ei in Hf.
      destruct (isLoading (page c)); [reflexivity | discriminate]. }
    destruct (Hl El) as (Herr & req & Hreq & (earlier & u & Hms & Hrole & _) & _).
    assert (pending = []) by congruence. subst pending.
    destruct result as [response|err]; split; cbn; try discriminate; try reflexivity.
    + rewrite Herr. discriminate.
    + intros E. destruct (app_cons_not_nil _ _ _ (eq_sym E)).
    + apply Answered_snoc; [exact Hs|]. intros _. eauto.
    + apply Forall_app. split; [exact Hu|]. constructor; [|constructor].
      intros Hr. discriminate Hr.
    + intros e E. assert (e = errorMessage err) by congruence. subst e.
      split; [apply errorMessage_truthy|].
      rewrite Hms. intros E'. destruct (app_cons_not_nil _ _ _ (eq_sym E')).
    + rewrite Hms. intros E. destruct (app_cons_not_nil _ _ _ (eq_sym E)).
    + exact Hs.
    + exact Hu.
  - destruct H; split; assumption.
Qed.

Lemma run_Inv (evs : list Event) : Inv (fst (run start evs)).
Proof. exact (run_invariant Inv step_Inv evs start start_Inv). Qed.

End Reachable.

(** ** One exchange, as a whole and in two steps *)

Section Exchange.

Import Api Page.
Context {Net : Type}.
Variable fetch : Request -> Net -> Settled Response * Net.

(** X7.  Whatever makes [sendMessage] throw (no connection, a status that
    is not ok, a body that is no JSON), [handleSend] ends with the user's
    message as the only new message, the session id and the preferences
    it started with, not loading, and the text for what was thrown in the
    state and in the error box of the page. *)
Theorem failed_exchange_keeps_the_conversation
  (st : State) (input : jsstring) (stampUser stampBot : Stamp)
  (net net' : Net) (e : Thrown) :
  truthy (trim input) = true ->
  isLoading st = false ->
  sendMessage fetch (ChatRequest.mk (trim input) (sessionId st) (preferences st)) net
    = (Threw e, net') ->
  handleSend fetch st input stampUser stampBot net =
    ({| messages := messages st ++ [userMsg input stampUser];
        isLoading := false;
        sessionId := sessionId st;
        preferences := preferences st;
        error := Some (errorMessage e) |}, net') /\
  render (fst (handleSend fetch st input stampUser stampBot net)) =
    Chat (map ChatMessage.render (messages st ++ [userMsg input stampUser])) false
         (Some (errorMessage e)).
Proof.
  intros Ht Hl Hsend.
  assert (E : handleSend fetch st input stampUser stampBot net =
    ({| messages := messages st ++ [userMsg input stampUser];
        isLoading := false;
        sessionId := sessionId st;
        preferences := preferences st;
        error := Some (errorMessage e) |}, net')).
  { unfold handleSend. rewrite (handleSendBegin_passes _ _ _ Ht Hl), Hsend. reflexivity. }
  split; [exact E|]. rewrite E. cbn [fst]. unfold render.
  rewrite (hasMessages_app _ (messages st) (userMsg input stampUser)) by reflexivity.
  cbn [messages isLoading error]. rewrite errorMessage_truthy. reflexivity.
Qed.


End Exchange.

Section ExchangeExamples.

Import Api Page.

Definition offline : Request -> unit -> Settled Response * unit :=
  fun _ net => (Threw (JsError (js "Failed to fetch")), net).

Lemma failed_exchange_keeps_the_conversation_witness :
  error (fst (handleSend offline initial (js "Psalm 23") stamp1 stamp2 tt))
  = Some CANNOT_CONNECT.
Proof.
  rewrite (proj1 (failed_exchange_keeps_the_conversation offline initial
                    (js "Psalm 23") stamp1 stamp2 tt tt
                    (JsError (js "Failed to fetch")) eq_refl eq_refl eq_refl)).
  reflexivity.
Defined.


End ExchangeExamples.

(** ** After any sequence of events *)

Section AfterAnyRun.

Import Api Page.

Lemma hasMessages_iff (st : State) : hasMessages st = true <-> messages st <> [].
Proof.
  unfold hasMessages. destruct (messages st); cbn; split; congruence.
Qed.









Lemma step_keeps_session (c : Client) (ev : Event) :
  sessionId (page c) <> None -> sessionId (page (fst (step c ev))) <> None.
Proof.
  assert (Hask : forall input stamp ta,
    sessionId (page (fst (ask c input stamp ta))) = sessionId (page c)).
  { intros input stamp ta. unfold ask, handleSendBegin.
    destruct (negb (truthy (trim input)) || isLoading (page c)); reflexivity. }
  intros H. destruct ev as [input stamp|input scrollHeight|stamp|result stamp|prefs];
    cbn [step].
  - rewrite Hask. exact H.
  - exact H.
  - destruct (ChatInput.handleSend (isLoading (page c)) (Some (textarea c)))
      as [[value|] [ta|]]; try exact H.
    rewrite Hask. exact H.
  - destruct (inflight c); [exact H|]. destruct result; cbn; [discriminate | exact H].
  - exact H.
Qed.

(** X11.  After any sequence of events the session id of the page is the
    one of the latest response received, and null if there was none; and
    from then on it is never null again, whatever follows: a failed
    exchange, a refused send, a change of the settings. *)
Theorem session_id_is_never_lost (evs more : list Event) :
  sessionId (page (fst (run start evs))) = lastSessionId (snd (run start evs)) /\
  (sessionId (page (fst (run start evs))) <> None ->
   sessionId (page (fst (run start (evs ++ more)))) <> None).
Proof.
  split.
  - assert (H0 : InStep [] start).
    { split; [|reflexivity]. intros [|? ?] payload post E; discriminate E. }
    exact (proj2 (run_InStep evs [] start H0)).
  - intros H. rewrite run_app.
    destruct (run start evs) as [c1 log1] eqn:E1. cbn [fst] in H.
    pose proof (run_invariant (fun c => sessionId (page c) <> None)
                  step_keeps_session more c1 H) as Hmore.
    destruct (run c1 more) as [c2 log2]. exact Hmore.
Qed.

Lemma session_id_is_never_lost_witness :
  sessionId (page (fst (run start
    ([Suggest (js "Psalm 23") stamp1; Settle (Fulfilled someResponse) stamp2]
     ++ [Suggest (js "and 24?") stamp3; Settle (Threw NotAnError) stamp4]))))
  <> None.
Proof.
  apply (proj2 (session_id_is_never_lost
                  [Suggest (js "Psalm 23") stamp1; Settle (Fulfilled someResponse) stamp2]
                  [Suggest (js "and 24?") stamp3; Settle (Threw NotAnError) stamp4])).
  discriminate.
Defined.

(** The preferences after a sequence of events: those of the latest change
    of the settings, or the ones before. *)
Definition settingsAfter (evs : list Event) (before : UserPreferences.t)
  : UserPreferences.t :=
  fold_left (fun p ev => match ev with ChangeSettings q => q | _ => p end) evs before.

Lemma step_preferences (c : Client) (ev : Event) :
  preferences (page (fst (step c ev))) =
  match ev with ChangeSettings q => q | _ => preferences (page c) end.
Proof.
  assert (Hask : forall input stamp ta,
    preferences (page (fst (ask c input stamp ta))) = preferences (page c)).
  { intros input stamp ta. unfold ask, handleSendBegin.
    destruct (negb (truthy (trim input)) || isLoading (page c)); reflexivity. }
  destruct ev as [input stamp|input scrollHeight|stamp|result stamp|prefs]; cbn [step].
  - apply Hask.
  - reflexivity.
  - destruct (ChatInput.handleSend (isLoading (page c)) (Some (textarea c)))
      as [[value|] [ta|]]; try reflexivity.
    apply Hask.
  - destruct (inflight c); [reflexivity|]. destruct result; reflexivity.
  - reflexivity.
Qed.

Lemma run_preferences (evs : list Event) (c : Client) :
  preferences (page (fst (run c evs))) = settingsAfter evs (preferences (page c)).
Proof.
  revert c. induction evs as [|ev evs IH]; intros c; cbn [run]; [reflexivity|].
  pose proof (step_preferences c ev) as Hs. destruct (step c ev) as [c' l].
  specialize (IH c'). destruct (run c' evs) as [c'' l']. cbn [fst] in *.
  rewrite IH, Hs. unfold settingsAfter. cbn [fold_left]. reflexivity.
Qed.

(** X12.  A change of the settings replaces the preferences and nothing
    else: the messages, the loading flag, the session id, the error, the
    text area and the request in flight stay as they are, and nothing is
    sent.  After any sequence of events, a request that is then sent
    carries the preferences of the latest change, or the initial ones if
    there was none. *)
Theorem settings_apply_from_the_next_request
  (evs : list Event) (c : Client) (prefs : UserPreferences.t)
  (input : jsstring) (stamp : Stamp) :
  (let c' := fst (step c (ChangeSettings prefs)) in
   preferences (page c') = prefs /\
   messages (page c') = messages (page c) /\ isLoading (page c') = isLoading (page c) /\
   sessionId (page c') = sessionId (page c) /\ error (page c') = error (page c) /\
   textarea c' = textarea c /\ inflight c' = inflight c /\
   snd (step c (ChangeSettings prefs)) = []) /\
  (forall payload,
     In (Sent payload) (snd (step (fst (run start evs)) (Suggest input stamp))) ->
     ChatRequest.preferences payload = settingsAfter evs (preferences initial)).
Proof.
  split; [cbn; auto 10|].
  intros payload Hin. cbn [step] in Hin. unfold ask, handleSendBegin in Hin.
  destruct (negb (truthy (trim input)) || isLoading (page (fst (run start evs))));
    cbn in Hin; [contradiction|].
  destruct Hin as [E|[]]. injection E as <-. cbn.
  apply (run_preferences evs start).
Qed.

Lemma settings_apply_from_the_next_request_witness :
  ChatRequest.preferences
    (ChatRequest.mk (js "Psalm 23") None
       (SettingsPanel.onChangeTranslationEn (preferences initial) (js "KJV")))
  = settingsAfter
      [ChangeSettings (SettingsPanel.onChangeTranslationEn (preferences initial) (js "KJV"))]
      (preferences initial).
Proof.
  apply (proj2 (settings_apply_from_the_next_request
                  [ChangeSettings
                     (SettingsPanel.onChangeTranslationEn (preferences initial) (js "KJV"))]
                  start (preferences initial) (js "Psalm 23") stamp1)).
  left. reflexivity.
Defined.

(** X13.  After any sequence of events, an error in the state is a
    non-empty text, the page is then not loading, and the text is shown in
    the error box under the messages.  The welcome screen is shown exactly
    when there is no message, and then nothing has happened yet: the page
    is not loading, has no error and no session id, and nothing is in
    flight. *)
Theorem errors_are_shown_and_welcome_is_idle (evs : list Event) :
  let c := fst (run start evs) in
  (forall e, error (page c) = Some e ->
     e <> [] /\ isLoading (page c) = false /\
     render (page c) = Chat (map ChatMessage.render (messages (page c))) false (Some e)) /\
  (render (page c) = Welcome <-> messages (page c) = []) /\
  (render (page c) = Welcome ->
   isLoading (page c) = false /\ error (page c) = None /\
   sessionId (page c) = None /\ inflight c = []).
Proof.
  intros c. destruct (run_Inv evs) as [_ Hl He Hn _ _]. fold c in Hl, He, Hn.
  assert (Hw : render (page c) = Welcome <-> messages (page c) = []).
  { unfold render. pose proof (hasMessages_iff (page c)) as Hh.
    destruct (hasMessages (page c)); split; try discriminate; try reflexivity.
    - intros E. destruct (proj1 Hh eq_refl E).
    - intros _. destruct (messages (page c)); [reflexivity|].
      assert (false = true) by (apply Hh; discriminate). discriminate. }
  split; [|split; [exact Hw | intros H; apply Hn, Hw, H]].
  intros e Ee. destruct (He e Ee) as [Ht Hne].
  assert (El : isLoading (page c) = false).
  { destruct (isLoading (page c)); [|reflexivity].
    destruct (Hl eq_refl) as [Hnone _]. congruence. }
  split; [apply truthy_not_nil, Ht|]. split; [exact El|].
  unfold render. rewrite (proj2 (hasMessages_iff _) Hne), El, Ee, Ht. reflexivity.
Qed.

Lemma errors_are_shown_and_welcome_is_idle_witness :
  render (page (fst (run start [Suggest (js "Psalm 23") stamp1;
                                Settle (Threw NotAnError) stamp2])))
  = Chat [ChatMessage.UserBubble (js "Psalm 23")] false
         (Some (TRY_AGAIN ++ js "Unknown error")).
Proof.
  rewrite (proj2 (proj2 (proj1 (errors_are_shown_and_welcome_is_idle
                                  [Suggest (js "Psalm 23") stamp1;
                                   Settle (Threw NotAnError) stamp2])
                                _ eq_refl))).
  reflexivity.
Defined.

End AfterAnyRun.

(** The defining equation of the scan, with the match spelled out. *)
Lemma replaceAll_cons (m : jsstring -> option (jsstring * jsstring))
  (H : forall s out rest, m s = Some (out, rest) -> (length rest < length s)%nat)
  (c : char16) (s : jsstring) :
  replaceAll m H (c :: s) =
  match m (c :: s) with
  | Some (out, rest) => out ++ replaceAll m H rest
  | None => c :: replaceAll m H s
  end.
Proof.
  remember (c :: s) as l eqn:El. revert c s El.
  funelim (replaceAll m H l); intros c0 s0 El.
  - discriminate.
  - rewrite Hm. reflexivity.
  - assert (c = c0 /\ s' = s0) as [-> ->] by (split; congruence).
    rewrite e. reflexivity.
Qed.

(** A stretch of code units at which the expression cannot start is copied
    as it is, and the scan goes on behind it. *)
Lemma replaceAll_skip (m : jsstring -> option (jsstring * jsstring))
  (H : forall s out rest, m s = Some (out, rest) -> (length rest < length s)%nat)
  (P : char16 -> Prop) (x y : jsstring) :
  (forall c s, P c -> m (c :: s) = None) ->
  Forall P x ->
  replaceAll m H (x ++ y) = x ++ replaceAll m H y.
Proof.
  intros Hm Hx. induction Hx as [|c x Hc _ IH]; [reflexivity|].
  cbn [app]. rewrite replaceAll_cons, (Hm c _ Hc), IH. reflexivity.
Qed.

(** ** What [formatContent] does replace *)

Section FormatContentReplaces.

Import ChatMessage.
Local Open Scope N_scope.

Lemma boldReplacement_no_star (c : char16) (s : jsstring) :
  c <> STAR -> boldReplacement (c :: s) = None.
Proof.
  intros Hc. unfold boldReplacement, matchBold. cbn [startsWith STARS].
  apply N.eqb_neq in Hc. rewrite N.eqb_sym, Hc. reflexivity.
Qed.

Lemma citationReplacement_no_bracket (c : char16) (s : jsstring) :
  c <> LBRACKET -> citationReplacement (c :: s) = None.
Proof.
  intros Hc. unfold citationReplacement, matchCitation.
  apply N.eqb_neq in Hc. rewrite Hc. reflexivity.
Qed.

Lemma lazyThenStars_complete (inner post : jsstring) :
  Forall (fun c => c <> STAR /\ isLineTerminator c = false) inner ->
  lazyThenStars (inner ++ STARS ++ post) = Some (inner, post).
Proof.
  induction 1 as [|c inner [Hc Hl] _ IH]; [reflexivity|].
  cbn [app lazyThenStars startsWith STARS].
  apply N.eqb_neq in Hc. rewrite N.eqb_sym, Hc. cbn [andb].
  rewrite Hl. cbn [STARS app] in IH. rewrite IH. reflexivity.
Qed.

Lemma boldReplacement_complete (inner post : jsstring) :
  Forall (fun c => c <> STAR /\ isLineTerminator c = false) inner ->
  boldReplacement (STARS ++ inner ++ STARS ++ post) = Some (boldTemplate inner, post).
Proof.
  intros H. unfold boldReplacement, matchBold. rewrite startsWith_app.
  change (drop 2 (STARS ++ inner ++ STARS ++ post)) with (inner ++ STARS ++ post).
  rewrite (lazyThenStars_complete _ _ H). reflexivity.
Qed.

Lemma restThenBracket_complete (ref rest : jsstring) :
  Forall (fun c => c <> RBRACKET) ref ->
  restThenBracket (ref ++ RBRACKET :: rest) = Some (ref, rest).
Proof.
  induction 1 as [|c ref Hc _ IH]; cbn [app restThenBracket].
  - rewrite N.eqb_refl. reflexivity.
  - apply N.eqb_neq in Hc. rewrite Hc, IH. reflexivity.
Qed.

Lemma spacesThenRef_complete (ws more rest : jsstring) (first : char16) :
  Forall (fun c => isWhiteSpace c = true) ws ->
  isWhiteSpace first = false ->
  Forall (fun c => c <> RBRACKET) (first :: more) ->
  spacesThenRef (ws ++ (first :: more) ++ RBRACKET :: rest) = Some (first :: more, rest).
Proof.
  intros Hws Hfirst Href. induction Hws as [|c ws Hc _ IH].
  - cbn [app spacesThenRef refThenBracket]. rewrite Hfirst.
    inversion Href as [|? ? Hf Hm]; subst. apply N.eqb_neq in Hf. rewrite Hf.
    rewrite (restThenBracket_complete _ _ Hm). reflexivity.
  - cbn [app spacesThenRef]. rewrite Hc. cbn [app] in IH. rewrite IH. reflexivity.
Qed.

Lemma nameThenRef_complete (name ws more rest : jsstring) (first : char16) :
  Forall (fun c => isWhiteSpace c = true) ws ->
  isWhiteSpace first = false ->
  Forall (fun c => c <> RBRACKET) (first :: more) ->
  nameThenRef name (name ++ COMMA :: ws ++ (first :: more) ++ RBRACKET :: rest)
  = Some (name, first :: more, rest).
Proof.
  intros Hws Hfirst Href. unfold nameThenRef.
  rewrite startsWith_app, drop_app_length, N.eqb_refl.
  rewrite (spacesThenRef_complete _ _ _ _ Hws Hfirst Href). reflexivity.
Qed.

Lemma citationReplacement_complete (name ws more rest : jsstring) (first : char16) :
  name = BIBLE \/ name = BIAOBU ->
  Forall (fun c => isWhiteSpace c = true) ws ->
  isWhiteSpace first = false ->
  Forall (fun c => c <> RBRACKET) (first :: more) ->
  citationReplacement
    (LBRACKET :: name ++ COMMA :: ws ++ (first :: more) ++ RBRACKET :: rest)
  = Some (citationTemplate name (first :: more), rest).
Proof.
  intros Hname Hws Hfirst Href. unfold citationReplacement, matchCitation.
  rewrite N.eqb_refl.
  destruct Hname as [-> | ->].
  - rewrite (nameThenRef_complete _ _ _ _ _ Hws Hfirst Href). reflexivity.
  - assert (E : nameThenRef BIBLE
                  (BIAOBU ++ COMMA :: ws ++ (first :: more) ++ RBRACKET :: rest) = None)
      by reflexivity.
    rewrite E, (nameThenRef_complete _ _ _ _ _ Hws Hfirst Href). reflexivity.
Qed.

(** The fixed parts of the two templates hold neither a star nor an
    opening bracket that could start a further match. *)
Lemma boldTemplate_no_bracket (group1 : jsstring) :
  Forall (fun c => c <> LBRACKET) group1 ->
  Forall (fun c => c <> LBRACKET) (boldTemplate group1).
Proof.
  intros H. unfold boldTemplate.
  repeat (apply Forall_app; split); try exact H;
    apply List.Forall_forall; intros x Hx; vm_compute in Hx;
    intros ->; vm_compute in Hx; intuition discriminate.
Qed.

Abbreviation boldPass := (replaceAll boldReplacement boldReplacement_shorter).
Abbreviation citationPass := (replaceAll citationReplacement citationReplacement_shorter).

(** X14.  A bold pair is replaced: when the text before it holds neither
    star nor opening bracket, and the text between the two pairs of stars
    holds neither of them and no line terminator, [formatContent] copies
    the text before, puts the text between the stars into its [<strong>]
    element, and formats the rest of the text in the same way. *)
Theorem formatContent_replaces_bold (pre inner post : jsstring) :
  Forall (fun c => c <> STAR /\ c <> LBRACKET) pre ->
  Forall (fun c => c <> STAR /\ c <> LBRACKET /\ isLineTerminator c = false) inner ->
  formatContent (pre ++ STARS ++ inner ++ STARS ++ post)
  = pre ++ boldTemplate inner ++ formatContent post.
Proof.
  intros Hpre Hinner. unfold formatContent.
  assert (Hbold : boldPass (pre ++ STARS ++ inner ++ STARS ++ post)
                  = pre ++ boldTemplate inner ++ boldPass post).
  { rewrite (replaceAll_skip _ _ (fun c => c <> STAR) pre _ boldReplacement_no_star)
      by (eapply List.Forall_impl; [|exact Hpre]; cbn; tauto).
    f_equal. change (STARS ++ inner ++ STARS ++ post)
      with (STAR :: STAR :: inner ++ STARS ++ post).
    rewrite replaceAll_cons.
    change (STAR :: STAR :: inner ++ STARS ++ post)
      with (STARS ++ inner ++ STARS ++ post).
    rewrite boldReplacement_complete; [reflexivity|].
    eapply List.Forall_impl; [|exact Hinner]; cbn; tauto. }
  rewrite Hbold.
  rewrite (replaceAll_skip _ _ (fun c => c <> LBRACKET) pre _ citationReplacement_no_bracket)
    by (eapply List.Forall_impl; [|exact Hpre]; cbn; tauto).
  f_equal.
  apply (replaceAll_skip _ _ (fun c => c <> LBRACKET) _ _ citationReplacement_no_bracket).
  apply boldTemplate_no_bracket. eapply List.Forall_impl; [|exact Hinner]; cbn; tauto.
Qed.

Lemma formatContent_replaces_bold_witness :
  formatContent (js "Be **strong** and [Bible, Joshua 1:9]")
  = js "Be " ++ boldTemplate (js "strong") ++ formatContent (js " and [Bible, Joshua 1:9]").
Proof.
  apply (formatContent_replaces_bold (js "Be ") (js "strong")
           (js " and [Bible, Joshua 1:9]"));
    repeat constructor; discriminate.
Defined.

(** X15.  A citation is highlighted and its spacing made uniform: when
    the text before it holds neither star nor opening bracket, the name is
    [Bible] or [标步], only white space stands between the comma and the
    reference, and the reference starts with something else than white
    space and holds neither closing bracket nor star, [formatContent]
    copies the text before, puts the citation into its [<span>] element
    with exactly one space after the comma, and formats the rest of the
    text in the same way. *)
Theorem formatContent_replaces_citation
  (pre name ws more post : jsstring) (first : char16) :
  Forall (fun c => c <> STAR /\ c <> LBRACKET) pre ->
  name = BIBLE \/ name = BIAOBU ->
  Forall (fun c => isWhiteSpace c = true) ws ->
  isWhiteSpace first = false ->
  Forall (fun c => c <> RBRACKET /\ c <> STAR) (first :: more) ->
  formatContent
    (pre ++ LBRACKET :: name ++ COMMA :: ws ++ (first :: more) ++ RBRACKET :: post)
  = pre ++ citationTemplate name (first :: more) ++ formatContent post.
Proof.
  intros Hpre Hname Hws Hfirst Href. unfold formatContent.
  assert (Hstars : Forall (fun c => c <> STAR)
            (pre ++ LBRACKET :: name ++ COMMA :: ws ++ (first :: more) ++ [RBRACKET])).
  { apply Forall_app. split; [eapply List.Forall_impl; [|exact Hpre]; cbn; tauto|].
    constructor; [discriminate|]. apply Forall_app. split.
    { destruct Hname as [-> | ->]; repeat constructor; discriminate. }
    constructor; [discriminate|]. apply Forall_app. split.
    { eapply List.Forall_impl; [|exact Hws]. cbn. intros c Hc ->. discriminate Hc. }
    apply Forall_app. split; [eapply List.Forall_impl; [|exact Href]; cbn; tauto|].
    constructor; [discriminate | constructor]. }
  assert (Esplit : pre ++ LBRACKET :: name ++ COMMA :: ws ++ (first :: more) ++ RBRACKET :: post
                   = (pre ++ LBRACKET :: name ++ COMMA :: ws ++ (first :: more) ++ [RBRACKET])
                     ++ post).
  { repeat (rewrite <- app_assoc || rewrite <- app_comm_cons). reflexivity. }
  rewrite Esplit.
  rewrite (replaceAll_skip _ _ (fun c => c <> STAR) _ _ boldReplacement_no_star Hstars).
  assert (Ejoin : (pre ++ LBRACKET :: name ++ COMMA :: ws ++ (first :: more) ++ [RBRACKET])
                    ++ boldPass post
                  = pre ++ LBRACKET :: name ++ COMMA :: ws ++ (first :: more)
                      ++ RBRACKET :: boldPass post).
  { repeat (rewrite <- app_assoc || rewrite <- app_comm_cons). reflexivity. }
  rewrite Ejoin.
  rewrite (replaceAll_skip _ _ (fun c => c <> LBRACKET) pre _ citationReplacement_no_bracket)
    by (eapply List.Forall_impl; [|exact Hpre]; cbn; tauto).
  f_equal. rewrite replaceAll_cons.
  rewrite (citationReplacement_complete name ws more _ first Hname Hws Hfirst)
    by (eapply List.Forall_impl; [|exact Href]; cbn; tauto).
  reflexivity.
Qed.

Lemma formatContent_replaces_citation_witness :
  formatContent (js "See [Bible,   Romans 8:28] today")
  = js "See " ++ citationTemplate (js "Bible") (js "Romans 8:28") ++ js " today".
Proof.
  apply (formatContent_replaces_citation (js "See ") (js "Bible") (js "   ")
           (js "omans 8:28") (js " today") 82).
  - repeat constructor; discriminate.
  - left. reflexivity.
  - repeat constructor.
  - reflexivity.
  - repeat constructor; discriminate.
Defined.

End FormatContentReplaces.

(** ** The welcome screen *)

Section Suggestions.

Import Api Page.

Lemma suggestions_are_trimmed :
  Forall (fun b : jsstring * jsstring =>
            truthy (trim (snd b)) = true /\ trim (snd b) = snd b)
         WelcomeScreen.buttons.
Proof.
  unfold WelcomeScreen.buttons, WelcomeScreen.SUGGESTIONS. cbn [map].
  repeat (constructor; [split; vm_compute; reflexivity|]). constructor.
Qed.

(** X16.  The six suggestion buttons have six different keys.  After any
    sequence of events, whenever the welcome screen is shown, a click on
    any of them is accepted: the text of the suggestion goes out
    unchanged, with a null session id and the preferences of the page,
    and becomes the first message, and the page is loading. *)
Theorem every_suggestion_sends (evs : list Event) (stamp : Stamp) :
  let c := fst (run start evs) in
  NoDup (map fst WelcomeScreen.buttons) /\
  length WelcomeScreen.buttons = 6 /\
  (render (page c) = Welcome ->
   Forall (fun b : jsstring * jsstring =>
             step c (Suggest (snd b) stamp) =
             ({| page := {| messages :=
                              [Message.mk (uuid stamp) user (snd b) (now stamp) None None];
                            isLoading := true;
                            sessionId := None;
                            preferences := preferences (page c);
                            error := None |};
                 textarea := textarea c;
                 inflight := [ChatRequest.mk (snd b) None (preferences (page c))] |},
              [Sent (ChatRequest.mk (snd b) None (preferences (page c)))]))
          WelcomeScreen.buttons).
Proof.
  intros c. split; [|split; [reflexivity|]].
  - apply (bool_decide_unpack _). vm_compute. exact I.
  - intros Hw. destruct (run_Inv evs) as [_ _ _ Hn _ _]. fold c in Hn.
    assert (Hm : messages (page c) = []).
    { unfold render in Hw. pose proof (hasMessages_iff (page c)) as Hh.
      destruct (hasMessages (page c)); [discriminate|].
      destruct (messages (page c)); [reflexivity|].
      assert (false = true) by (apply Hh; discriminate). discriminate. }
    destruct (Hn Hm) as (Hl & _ & Hs & Hi).
    eapply List.Forall_impl; [|exact suggestions_are_trimmed].
    intros [key text] [Ht Htrim]. cbn [snd] in *. cbn [step].
    unfold ask, handleSendBegin, userMsg. rewrite Ht, Hl, Hm, Hs, Hi, Htrim. reflexivity.
Qed.

Lemma every_suggestion_sends_witness :
  Forall (fun b : jsstring * jsstring =>
            snd (step start (Suggest (snd b) stamp1))
            = [Sent (ChatRequest.mk (snd b) None (preferences initial))])
         WelcomeScreen.buttons.
Proof.
  eapply List.Forall_impl;
    [|exact (proj2 (proj2 (every_suggestion_sends [] stamp1)) eq_refl)].
  intros b Hb. cbn [run fst] in Hb. rewrite Hb. reflexivity.
Defined.

End Suggestions.

(** ** The settings panel, once more *)

Section SettingsLaws.

Import SettingsPanel SettingsSelects.

(** X17.  [update] and property access fit together: writing back the
    value that a key holds changes nothing, of two writes under one key
    the second wins, and writes under different keys can be swapped. *)
Theorem update_laws
  (preferences : UserPreferences.t) (key other : Key) (v w : option jsstring) :
  update preferences key (get preferences key) = preferences /\
  update (update preferences key v) key w = update preferences key w /\
  (key <> other ->
   update (update preferences key v) other w
   = update (update preferences other w) key v).
Proof.
  destruct preferences as [kr en den].
  split; [destruct key; reflexivity|]. split; [destruct key; reflexivity|].
  intros Hne. destruct key, other; try reflexivity; contradiction.
Qed.

Lemma update_laws_witness :
  update (update (Page.preferences Page.initial) key_translation_en (Some (js "KJV")))
         key_denomination (Some (js "Baptist"))
  = update (update (Page.preferences Page.initial) key_denomination (Some (js "Baptist")))
           key_translation_en (Some (js "KJV")).
Proof.
  apply (proj2 (proj2 (update_laws (Page.preferences Page.initial)
                         key_translation_en key_denomination
                         (Some (js "KJV")) (Some (js "Baptist"))))).
  discriminate.
Defined.

(** Each select shows one of its options. *)
Definition OnOptions (preferences : UserPreferences.t) : Prop :=
  (exists v, UserPreferences.translation_kr preferences = Some v /\
             In v translationKrOptions) /\
  (exists v, UserPreferences.translation_en preferences = Some v /\
             In v translationEnOptions) /\
  In (denominationValue preferences) denominationOptions /\
  UserPreferences.denomination preferences <> Some [].

Lemma denominationValue_onChange (preferences : UserPreferences.t) (v : jsstring) :
  denominationValue (onChangeDenomination preferences v) = v /\
  UserPreferences.denomination (onChangeDenomination preferences v) <> Some [].
Proof. destruct v; cbn; split; congruence. Qed.

Lemma onChange_OnOptions (preferences : UserPreferences.t) (ch : Change) :
  listed ch -> OnOptions preferences -> OnOptions (onChange preferences ch).
Proof.
  intros Hl (Hkr & Hen & Hd & Hne). destruct ch as [v|v|v]; cbn [onChange listed] in *.
  - split; [exists v; auto|]. split; [exact Hen|]. split; assumption.
  - split; [exact Hkr|]. split; [exists v; auto|]. split; assumption.
  - split; [exact Hkr|]. split; [exact Hen|].
    destruct (denominationValue_onChange preferences v) as [E Hn].
    split; [rewrite E; exact Hl | exact Hn].
Qed.

(** X18.  The denomination select shows what was chosen last: the value
    it displays after a change is the chosen value, and the stored
    denomination is never the empty string.  Starting from the initial
    preferences of the page, after any number of changes that each pick an
    option of their select, each of the three selects still shows one of
    its own options, and both translations are strings, not null. *)
Theorem selects_stay_on_their_options
  (preferences : UserPreferences.t) (v : jsstring) (changes : list Change) :
  denominationValue (onChangeDenomination preferences v) = v /\
  UserPreferences.denomination (onChangeDenomination preferences v) <> Some [] /\
  (Forall listed changes ->
   OnOptions (fold_left onChange changes (Page.preferences Page.initial))).
Proof.
  destruct (denominationValue_onChange preferences v) as [E Hn].
  split; [exact E|]. split; [exact Hn|].
  assert (H0 : OnOptions (Page.preferences Page.initial)).
  { split; [eexists; split; [reflexivity | left; reflexivity]|].
    split; [eexists; split; [reflexivity | left; reflexivity]|].
    split; [left; reflexivity | discriminate]. }
  generalize (Page.preferences Page.initial) H0.
  induction changes as [|ch changes IH]; intros p Hp Hall; [exact Hp|].
  inversion Hall as [|? ? Hch Hrest]; subst. cbn [fold_left].
  apply IH; [apply onChange_OnOptions; assumption | exact Hrest].
Qed.

Lemma selects_stay_on_their_options_witness :
  OnOptions (fold_left onChange
               [ChangeTranslationEn (js "KJV"); ChangeDenomination (js "Methodist");
                ChangeDenomination []]
               (Page.preferences Page.initial)).
Proof.
  apply (proj2 (proj2 (selects_stay_on_their_options
                         (Page.preferences Page.initial) []
                         [ChangeTranslationEn (js "KJV");
                          ChangeDenomination (js "Methodist"); ChangeDenomination []]))).
  repeat (constructor; [vm_compute; intuition reflexivity|]). constructor.
Defined.

End SettingsLaws.

(** ** Sending from the text area, and the list of sources *)

Section SendAndSources.

Import Api Page.

Lemma PressSend_sends_witness :
  snd (step (fst (run start [Type_ (js "  Psalm 23 ") 24])) (PressSend stamp1))
  = [Sent (ChatRequest.mk (js "Psalm 23") None (preferences initial))].
Proof.
  apply (PressSend_sends (fst (run start [Type_ (js "  Psalm 23 ") 24])) stamp1);
    reflexivity.
Defined.

(** X20.  A message is rendered with a list of sources exactly when it is
    an assistant message that holds at least one source, and the list
    then has one chip per source, in their order, each made of the
    reference and the translation; a user message, an absent source list
    and an empty one are rendered without. *)
Theorem sources_are_listed_iff_present (m : Message.t) (chips : list jsstring) :
  (exists html, ChatMessage.render m = ChatMessage.AssistantBubble html (Some chips)) <->
  Message.role m = assistant /\
  exists s l, Message.sources m = Some (s :: l) /\
              chips = map (fun x => Source.reference x ++ js " ("
                                      ++ Source.translation x ++ js ")") (s :: l).
Proof.
  unfold ChatMessage.render. destruct (Message.role m).
  - split; [intros [html H]; discriminate | intros [H _]; discriminate].
  - destruct (Message.sources m) as [[|s l]|].
    + split; [intros [html H]; discriminate | intros (_ & s & l & H & _); discriminate].
    + split.
      * intros [html H]. split; [reflexivity|]. exists s, l. split; [reflexivity|].
        inversion H. reflexivity.
      * intros (_ & s' & l' & H & ->). eexists.
        assert (s' :: l' = s :: l) as -> by congruence. reflexivity.
    + split; [intros [html H]; discriminate | intros (_ & s & l & H & _); discriminate].
Qed.

Lemma sources_are_listed_iff_present_witness :
  exists html,
    ChatMessage.render (botMsg (ChatResponse.mk (js "See John.") (js "s-1") (js "en")
                                  [john316] rag (js "m")
                                  {| input_tokens := 1; output_tokens := 1 |}) stamp2)
    = ChatMessage.AssistantBubble html (Some [js "John 3:16 (ESV)"]).
Proof.
  apply (proj2 (sources_are_listed_iff_present _ [js "John 3:16 (ESV)"])).
  split; [reflexivity|]. exists john316, []. split; reflexivity.
Defined.

End SendAndSources.
